(** * Ecological-Data-Dashboard: the CSV-to-MySQL ingestion scripts

    A shallow embedding of the Python ingestion scripts under [src/]:
    the value converters, the health buckets, the borough and geo-level
    inference of the air-quality script, the date parser, the column
    validation of the scripts, and the batched insert loop.

    Text is modelled as Rocq [string] (ASCII text); Python's [str.strip],
    [str.lower] and the regex class [\s] are written out for that
    alphabet.  A Python argument that may be [None] or a non-string is an
    [option string]; pandas cells are [pyval]s. *)

From Stdlib Require Import Ascii String List ZArith Lia Bool Arith.
Import ListNotations.
Open Scope string_scope.

(* ------------------------------------------------------------------ *)
(** ** Python string primitives *)

(** [str.isspace] on one ASCII character (this is also what the regex
    class [\s] matches in a [str] pattern): [\t \n \v \f \r], the
    separators [\x1c]..[\x1f], and the space. *)
Definition is_py_space (c : ascii) : bool :=
  let n := nat_of_ascii c in
  (((9 <=? n) && (n <=? 13)) || ((28 <=? n) && (n <=? 32)))%nat.

Definition is_digit (c : ascii) : bool :=
  let n := nat_of_ascii c in ((48 <=? n) && (n <=? 57))%nat.

Definition digit_val (c : ascii) : Z := Z.of_nat (nat_of_ascii c - 48)%nat.

(** [str.lower] on ASCII. *)
Definition lower_char (c : ascii) : ascii :=
  let n := nat_of_ascii c in
  if ((65 <=? n) && (n <=? 90))%nat then ascii_of_nat (n + 32)%nat else c.

Fixpoint lower (s : string) : string :=
  match s with
  | EmptyString => EmptyString
  | String c s' => String (lower_char c) (lower s')
  end.

Fixpoint lstrip (s : string) : string :=
  match s with
  | EmptyString => EmptyString
  | String c s' => if is_py_space c then lstrip s' else s
  end.

Fixpoint rstrip (s : string) : string :=
  match s with
  | EmptyString => EmptyString
  | String c s' =>
      let r := rstrip s' in
      if is_py_space c && String.eqb r EmptyString then EmptyString
      else String c r
  end.

(** [str.strip()]. *)
Definition strip (s : string) : string := rstrip (lstrip s).

(** [x in {"a", "b", ...}] on strings. *)
Definition str_in (t : string) (l : list string) : bool :=
  existsb (String.eqb t) l.

(** [sub in s] for strings (substring test). *)
Fixpoint is_prefix (p s : string) : bool :=
  match p, s with
  | EmptyString, _ => true
  | String a p', String b s' => Ascii.eqb a b && is_prefix p' s'
  | String _ _, EmptyString => false
  end.

Fixpoint py_contains (s sub : string) : bool :=
  is_prefix sub s ||
  match s with
  | EmptyString => false
  | String _ s' => py_contains s' sub
  end.

(** [re.sub(r"[,\s]", "", s)]: drop every comma and whitespace. *)
Fixpoint remove_commas_spaces (s : string) : string :=
  match s with
  | EmptyString => EmptyString
  | String c s' =>
      if Ascii.eqb c "," || is_py_space c then remove_commas_spaces s'
      else String c (remove_commas_spaces s')
  end.

(** Value of a string of decimal digits (most significant first). *)
Fixpoint digits_value_acc (acc : Z) (s : string) : Z :=
  match s with
  | EmptyString => acc
  | String c s' => digits_value_acc (acc * 10 + digit_val c)%Z s'
  end.

Definition all_digits (s : string) : bool :=
  forallb is_digit (list_ascii_of_string s).

(** [re.fullmatch(r"-?\d+", t)] together with [int(t)]. *)
Definition int_literal (t : string) : option Z :=
  match t with
  | String "-" ds =>
      if negb (String.eqb ds EmptyString) && all_digits ds
      then Some (- digits_value_acc 0 ds)%Z else None
  | _ =>
      if negb (String.eqb t EmptyString) && all_digits t
      then Some (digits_value_acc 0 t) else None
  end.

(** *** Python [float(text)]

    The double returned by [float] is identified by the accepted literal
    (sign, digits with single underscores, point, exponent, or one of
    [inf], [infinity], [nan] in any case); a literal the grammar rejects
    raises [ValueError], modelled as [None]. *)
Inductive pyfloat := PFloat (literal : string).

(** [digitpart ::= digit (["_"] digit)*]: the rest after the longest
    digitpart, or [None] when there is no leading digit. *)
Fixpoint digitpart_tail (s : string) : string :=
  match s with
  | String c s' =>
      if is_digit c then digitpart_tail s'
      else if Ascii.eqb c "_" then
        match s' with
        | String d s'' => if is_digit d then digitpart_tail s'' else s
        | EmptyString => s
        end
      else s
  | EmptyString => EmptyString
  end.

Definition digitpart (s : string) : option string :=
  match s with
  | String c _ => if is_digit c then Some (digitpart_tail s) else None
  | EmptyString => None
  end.

Definition opt_sign (s : string) : string :=
  match s with
  | String c s' => if Ascii.eqb c "+" || Ascii.eqb c "-" then s' else s
  | EmptyString => s
  end.

(** [number [exponent]] must consume the whole text. *)
Definition float_number_ok (s : string) : bool :=
  let after_number :=
    match digitpart s with
    | Some r =>
        match r with
        | String "." r' =>
            match digitpart r' with Some r'' => Some r'' | None => Some r' end
        | _ => Some r
        end
    | None =>
        match s with
        | String "." r' => digitpart r'
        | _ => None
        end
    end in
  match after_number with
  | None => false
  | Some EmptyString => true
  | Some (String e r) =>
      if Ascii.eqb e "e" || Ascii.eqb e "E" then
        match digitpart (opt_sign r) with
        | Some EmptyString => true
        | _ => false
        end
      else false
  end.

Definition py_float (text : string) : option pyfloat :=
  let t := strip text in
  let body := opt_sign t in
  if str_in (lower body) ["inf"; "infinity"; "nan"] || float_number_ok body
  then Some (PFloat t) else None.

(** [str(n)] of a natural number: its decimal digits. *)
Fixpoint dec_digits (fuel : nat) (n : Z) (acc : string) : string :=
  match fuel with
  | O => acc
  | S f =>
      let acc' := String (ascii_of_nat (48 + Z.to_nat (n mod 10))) acc in
      if (n <? 10)%Z then acc' else dec_digits f (n / 10) acc'
  end.

Definition dec_string (n : Z) : string := dec_digits (S (Z.to_nat (Z.log2 n))) n "".

(** [str(z)] of an int. *)
Definition int_str (z : Z) : string :=
  (if (z <? 0)%Z then "-" else "") ++ dec_string (Z.abs z).

(** The value of an accepted literal (sign removed, not [inf] or [nan])
    as [m * 10^e]: the digits of the number with the point removed, and
    the exponent less the count of digits after the point; underscores
    are skipped. *)
Fixpoint mant_scan (s : string) (m fd : Z) (dot : bool) : Z * Z * string :=
  match s with
  | EmptyString => (m, fd, EmptyString)
  | String c s' =>
      if is_digit c then mant_scan s' (10 * m + digit_val c)%Z (if dot then fd + 1 else fd)%Z dot
      else if Ascii.eqb c "_" then mant_scan s' m fd dot
      else if Ascii.eqb c "." then mant_scan s' m fd true
      else (m, fd, s)
  end.

Fixpoint digits_skip_us (acc : Z) (s : string) : Z :=
  match s with
  | EmptyString => acc
  | String c s' =>
      if is_digit c then digits_skip_us (10 * acc + digit_val c)%Z s' else digits_skip_us acc s'
  end.

Definition exponent_value (s : string) : Z :=
  match s with
  | String _ (String "-" ds) => (- digits_skip_us 0 ds)%Z
  | String _ r => digits_skip_us 0 (opt_sign r)
  | EmptyString => 0%Z
  end.

Definition decimal_of_body (body : string) : Z * Z :=
  let '(m, fd, rest) := mant_scan body 0 0 false in (m, exponent_value rest - fd)%Z.

(** An IEEE-754 binary64 value: [F64 neg n s] is [(-1)^neg * n * 2^s]
    with [0 <= n < 2^53] and [-1074 <= s <= 971]. *)
Inductive f64 := F64 (neg : bool) (n s : Z) | F64Inf (neg : bool) | F64NaN.

(** [a / b] rounded to the nearest integer, ties to even ([b > 0]). *)
Definition div_round_even (a b : Z) : Z :=
  let q := (a / b)%Z in
  let r := (a mod b)%Z in
  if (2 * r <? b)%Z then q
  else if (b <? 2 * r)%Z then (q + 1)%Z
  else if Z.even q then q else (q + 1)%Z.

(** The binary64 nearest to [a / b] ([a >= 0], [b > 0]), ties to even,
    with the sign [neg]: [e] is [floor(log2(a/b))], [s] the exponent of
    the last significand bit (53 bits, or the subnormal scale [2^-1074]);
    a result of [2^1024] or more is an infinity. *)
Definition round64 (neg : bool) (a b : Z) : f64 :=
  if (a =? 0)%Z then F64 neg 0 0 else
  let k := (Z.log2 a - Z.log2 b)%Z in
  let e := if (b * 2 ^ Z.max k 0 <=? a * 2 ^ Z.max (- k) 0)%Z then k else (k - 1)%Z in
  let s := Z.max (e - 52) (-1074) in
  let n := div_round_even (a * 2 ^ Z.max (- s) 0) (b * 2 ^ Z.max s 0) in
  if (0 <=? s)%Z && (2 ^ (1024 - s) <=? n)%Z then F64Inf neg else F64 neg n s.

(** The binary64 [num / den] ([den > 0]). *)
Definition round64_q (num den : Z) : f64 := round64 (num <? 0)%Z (Z.abs num) den.

Definition sign_of (t : string) : bool :=
  match t with String "-" _ => true | _ => false end.

(** The double [float] returns for an accepted literal (correctly
    rounded, as CPython's [float] is). *)
Definition f64_of (f : pyfloat) : f64 :=
  match f with
  | PFloat lit =>
      let t := strip lit in
      let body := opt_sign t in
      if str_in (lower body) ["inf"; "infinity"] then F64Inf (sign_of t)
      else if String.eqb (lower body) "nan" then F64NaN
      else
        let '(m, e) := decimal_of_body body in
        if (0 <=? e)%Z then round64 (sign_of t) (m * 10 ^ e) 1
        else round64 (sign_of t) m (10 ^ (- e))
  end.

Definition float_is_nan (f : pyfloat) : bool :=
  match f with PFloat lit => String.eqb (lower (opt_sign (strip lit))) "nan" end.

(** The double is an infinity: [inf], [infinity], or a literal too large
    for binary64 such as ["1e999"]. *)
Definition float_is_inf (f : pyfloat) : bool :=
  match f64_of f with F64Inf _ => true | _ => false end.

(** [int(x)] of a finite double: truncation toward zero. *)
Definition f64_trunc (neg : bool) (n s : Z) : Z :=
  let v := if (0 <=? s)%Z then (n * 2 ^ s)%Z else (n / 2 ^ (- s))%Z in
  if neg then (- v)%Z else v.

(** The numerator and denominator of a finite double. *)
Definition f64_num (neg : bool) (n s : Z) : Z := ((if neg then - n else n) * 2 ^ Z.max s 0)%Z.
Definition f64_den (s : Z) : Z := (2 ^ Z.max (- s) 0)%Z.

(** Halve the significand while it is even and the exponent negative. *)
Fixpoint f64_normalize (fuel : nat) (n s : Z) : Z * Z :=
  match fuel with
  | O => (n, s)
  | S f =>
      if (s <? 0)%Z && Z.even n && negb (n =? 0)%Z
      then f64_normalize f (n / 2) (s + 1) else (n, s)
  end.

(** A literal [float] reads back as the same double: the exact decimal
    expansion of a finite double, [inf], [-inf] or [nan]. *)
Definition f64_literal (d : f64) : pyfloat :=
  match d with
  | F64NaN => PFloat "nan"
  | F64Inf neg => PFloat (if neg then "-inf" else "inf")
  | F64 neg n s =>
      let '(n, s) := f64_normalize (Z.to_nat (- s)) n s in
      PFloat ((if neg then "-" else "") ++
              (if (n =? 0)%Z then "0.0"
               else if (0 <=? s)%Z then dec_string (n * 2 ^ s) ++ ".0"
               else dec_string (n * 5 ^ (- s)) ++ "e-" ++ dec_string (- s)))
  end.

(* ------------------------------------------------------------------ *)
(** ** Value converters (ingest_csv_to_mysql_1995.py, lines 45-77;
       identical copies in ingest_csv_to_mysql_2005.py) *)

Definition to_bool (s : option string) : option Z :=
  match s with
  | None => None
  | Some s =>
      let t := lower (strip s) in
      if str_in t ["y"; "yes"; "1"; "true"; "t"] then Some 1%Z
      else if str_in t ["n"; "no"; "0"; "false"; "f"] then Some 0%Z
      else None
  end.

(** [to_int]: [int(t)] of a numeral of more than 4300 digits raises
    [ValueError] (CPython's default limit on string conversion), which
    is not modelled here; the statements about it keep to numerals
    within the limit, or to texts [int] is never applied to. *)
Definition to_int (s : option string) : option Z :=
  match s with
  | None => None
  | Some s =>
      let t := remove_commas_spaces s in
      if String.eqb t EmptyString then None else int_literal t
  end.

Definition to_int_bounded (s : option string) (low high : Z) : option Z :=
  match to_int s with
  | None => None
  | Some v => if (low <=? v)%Z && (v <=? high)%Z then Some v else None
  end.

Definition to_dec (s : option string) : option pyfloat :=
  match s with
  | None => None
  | Some s =>
      let t := remove_commas_spaces s in
      if String.eqb t EmptyString then None else py_float t
  end.

(** [to_year] of ingest_csv_to_mysql_2005.py. *)
Definition to_year (s : option string) : option Z :=
  match to_int s with Some v => Some v | None => None end.

Definition condition_to_health_3cat (s : option string) : option string :=
  match s with
  | None => None
  | Some s =>
      let t := lower (strip s) in
      if str_in t ["excellent"; "e"] then Some "Good"
      else if str_in t ["good"; "g"] then Some "Fair"
      else if str_in t ["poor"; "p"; "dead"; "d"; "fair"; "f"] then Some "Poor"
      else None
  end.

(** ingest_csv_to_mysql_2005.py, lines 101-107. *)
Definition status_to_health_3cat (s : option string) : option string :=
  match s with
  | None => None
  | Some s =>
      let t := lower (strip s) in
      if str_in t ["excellent"; "e"] then Some "Good"
      else if str_in t ["good"; "g"] then Some "Fair"
      else if str_in t ["poor"; "p"; "dead"; "d"; "fair"; "f"] then Some "Poor"
      else None
  end.

(** ingest_csv_to_mysql_2015.py, lines 55-62. *)
Definition health_to_health_3cat (s : option string) : option string :=
  match s with
  | None => None
  | Some s =>
      let t := lower (strip s) in
      if String.eqb t "good" then Some "Good"
      else if String.eqb t "fair" then Some "Fair"
      else if String.eqb t "poor" then Some "Poor"
      else None
  end.

Example to_int_ex1 : to_int (Some " 1,234 ") = Some 1234%Z. Proof. reflexivity. Qed.
Example to_int_ex2 : to_int (Some "-7") = Some (-7)%Z. Proof. reflexivity. Qed.
Example to_int_bounded_ex : to_int_bounded (Some "450") 0 400 = None
  /\ to_int_bounded (Some "150") 0 400 = Some 150%Z
  /\ to_int_bounded (Some "abc") 0 400 = None.
Proof. repeat split; reflexivity. Qed.
Example py_float_ex : py_float "1_0.5e-3" = Some (PFloat "1_0.5e-3")
  /\ py_float "InFiNity" <> None /\ py_float "1_" = None /\ py_float "." = None
  /\ py_float "NA" = None /\ py_float "-.5" <> None /\ py_float "5." <> None.
Proof. repeat split; try reflexivity; discriminate. Qed.
Example strip_ex : strip "  a b  " = "a b". Proof. reflexivity. Qed.

(* ------------------------------------------------------------------ *)
(** ** [datetime.strptime] for the directives the scripts use

    Python's [_strptime] compiles a format into a regex (flag
    IGNORECASE), runs [re.match] (first match in backtracking order),
    and raises [ValueError] when nothing matches or when the match stops
    before the end of the text ("unconverted data remains").  The
    directive regexes are those of [_strptime.TimeRE]:
    - [%Y]: [\d\d\d\d]
    - [%y]: [\d\d]
    - [%m]: [1[0-2]|0[1-9]|[1-9]]
    - [%d]: [3[01]|[12]\d|0[1-9]|[1-9]| [1-9]]
    The parsed fields then build [datetime.date(year, month, day)],
    which raises [ValueError] on an impossible date. *)

Inductive directive := DirY | Diry | Dirm | Dird | DirLit (c : ascii).

Fixpoint compile_fmt (f : string) : list directive :=
  match f with
  | String "%" (String c f') =>
      let d := if Ascii.eqb c "Y" then DirY
               else if Ascii.eqb c "y" then Diry
               else if Ascii.eqb c "m" then Dirm
               else if Ascii.eqb c "d" then Dird
               else DirLit c in
      d :: compile_fmt f'
  | String c f' => DirLit c :: compile_fmt f'
  | EmptyString => []
  end.

Definition cls_char (c : ascii) : ascii -> bool :=
  fun x => Ascii.eqb (lower_char x) (lower_char c).
Definition cls_range (lo hi : ascii) : ascii -> bool :=
  fun x => ((nat_of_ascii lo <=? nat_of_ascii x) && (nat_of_ascii x <=? nat_of_ascii hi))%nat.

(** The alternatives of each directive's regex, in the order the regex
    engine tries them; an alternative is a sequence of character classes. *)
Definition alternatives (d : directive) : list (list (ascii -> bool)) :=
  match d with
  | DirY => [[is_digit; is_digit; is_digit; is_digit]]
  | Diry => [[is_digit; is_digit]]
  | Dirm => [[cls_char "1"; cls_range "0" "2"];
             [cls_char "0"; cls_range "1" "9"];
             [cls_range "1" "9"]]
  | Dird => [[cls_char "3"; cls_range "0" "1"];
             [cls_range "1" "2"; is_digit];
             [cls_char "0"; cls_range "1" "9"];
             [cls_range "1" "9"];
             [cls_char " "; cls_range "1" "9"]]
  | DirLit c => [[cls_char c]]
  end.

(** Match a sequence of classes at the start of [s]: matched text and rest. *)
Fixpoint match_classes (cls : list (ascii -> bool)) (s : string)
  : option (string * string) :=
  match cls, s with
  | [], _ => Some (EmptyString, s)
  | k :: cls', String c s' =>
      if k c then
        match match_classes cls' s' with
        | Some (m, r) => Some (String c m, r)
        | None => None
        end
      else None
  | _ :: _, EmptyString => None
  end.

Definition directive_matches (d : directive) (s : string) : list (string * string) :=
  flat_map (fun alt => match match_classes alt s with
                       | Some mr => [mr]
                       | None => []
                       end) (alternatives d).

(** All matches of a compiled format at the start of [s], in backtracking
    order: the captured groups (directive, text) and the unmatched rest. *)
Fixpoint regex_matches (ds : list directive) (s : string)
  : list (list (directive * string) * string) :=
  match ds with
  | [] => [([], s)]
  | d :: ds' =>
      flat_map (fun '(m, r) =>
                  map (fun '(caps, r') => ((d, m) :: caps, r'))
                      (regex_matches ds' r))
               (directive_matches d s)
  end.

Fixpoint capture (caps : list (directive * string)) (d : directive) : option string :=
  match caps with
  | [] => None
  | (d', m) :: caps' =>
      match d, d' with
      | DirY, DirY | Diry, Diry | Dirm, Dirm | Dird, Dird => Some m
      | _, _ => capture caps' d
      end
  end.

Record date := mkdate { year : Z; month : Z; day : Z }.

Definition is_leap (y : Z) : bool :=
  (Z.eqb (y mod 4) 0 && negb (Z.eqb (y mod 100) 0)) || Z.eqb (y mod 400) 0.

Definition days_in_month (y m : Z) : Z :=
  if Z.eqb m 2 then (if is_leap y then 29 else 28)
  else if existsb (Z.eqb m) [4; 6; 9; 11]%Z then 30 else 31.

(** [datetime.date(year, month, day)] accepts the arguments. *)
Definition valid_date (d : date) : bool :=
  (1 <=? year d)%Z && (year d <=? 9999)%Z &&
  (1 <=? month d)%Z && (month d <=? 12)%Z &&
  (1 <=? day d)%Z && (day d <=? days_in_month (year d) (month d))%Z.

(** [int(text)] of a captured group (int strips the blank of [" 5"]). *)
Definition group_int (m : string) : Z := digits_value_acc 0 (strip m).

Definition strptime (t : string) (fmt : string) : option date :=
  match regex_matches (compile_fmt fmt) t with
  | [] => None
  | (caps, rest) :: _ =>
      if negb (String.eqb rest EmptyString) then None
      else
        let y := match capture caps DirY with
                 | Some m => group_int m
                 | None =>
                     match capture caps Diry with
                     | Some m => let v := group_int m in
                                 if (v <=? 68)%Z then v + 2000 else v + 1900
                     | None => 1900
                     end
                 end%Z in
        let mo := match capture caps Dirm with Some m => group_int m | None => 1%Z end in
        let dd := match capture caps Dird with Some m => group_int m | None => 1%Z end in
        let dt := mkdate y mo dd in
        if valid_date dt then Some dt else None
  end.

(** ["%0<w>d"] of a non-negative integer. *)
Fixpoint pad_dec (w : nat) (n : Z) : string :=
  match w with
  | O => EmptyString
  | S w' => pad_dec w' (n / 10) ++ String (ascii_of_nat (48 + Z.to_nat (n mod 10))) EmptyString
  end.

(** [date.isoformat()]: ["%04d-%02d-%02d"]. *)
Definition isoformat (d : date) : string :=
  pad_dec 4 (year d) ++ "-" ++ pad_dec 2 (month d) ++ "-" ++ pad_dec 2 (day d).

Definition DATE_FORMATS : list string :=
  ["%Y-%m-%d"; "%m/%d/%Y"; "%m/%d/%y"; "%m-%d-%Y"; "%m-%d-%y"].

(** The [for fmt in (...): try: return ...; except ValueError: continue]
    loop of [to_iso_date]. *)
Fixpoint try_formats (t : string) (fmts : list string) : option string :=
  match fmts with
  | [] => None
  | fmt :: fmts' =>
      match strptime t fmt with
      | Some dt => Some (isoformat dt)
      | None => try_formats t fmts'
      end
  end.

(** [to_iso_date] of ingest_csv_to_mysql_2015.py, lines 41-52. *)
Definition to_iso_date (s : option string) : option string :=
  match s with
  | None => None
  | Some s =>
      let t := strip s in
      if String.eqb t EmptyString || str_in (lower t) ["na"; "n/a"; "null"] then None
      else try_formats t DATE_FORMATS
  end.

Example to_iso_date_ex1 : to_iso_date (Some "8/27/15") = Some "2015-08-27". Proof. reflexivity. Qed.
Example to_iso_date_ex2 : to_iso_date (Some " 2015-08-27 ") = Some "2015-08-27". Proof. reflexivity. Qed.
Example to_iso_date_ex3 : to_iso_date (Some "02/30/2015") = None. Proof. reflexivity. Qed.
Example to_iso_date_ex4 : to_iso_date (Some "12-31-99") = Some "1999-12-31". Proof. reflexivity. Qed.
Example to_iso_date_ex5 : to_iso_date (Some "2015-01-123") = None. Proof. reflexivity. Qed.
Example to_iso_date_ex6 : to_iso_date (Some "01/ 5/2015") = Some "2015-01-05". Proof. reflexivity. Qed.
Example to_iso_date_ex7 : to_iso_date (Some "0000-01-01") = None. Proof. reflexivity. Qed.

(* ------------------------------------------------------------------ *)
(** ** Borough and geo-level inference (ingest_csv_to_mysql_air_quality.py) *)

(** [BOROUGH_MAP_SECONDARY], lines 34-69, in dict insertion order. *)
Definition BOROUGH_MAP_SECONDARY : list (string * string) :=
  [ ("washington heights", "Manhattan");
    ("stuyvesant town", "Manhattan");
    ("turtle bay", "Manhattan");
    ("new york city", "Manhattan");
    ("throgs neck", "Bronx");
    ("co-op city", "Bronx");
    ("hunts point", "Bronx");
    ("longwood", "Bronx");
    ("downtown", "Brooklyn");
    ("heights", "Brooklyn");
    ("slope", "Brooklyn");
    ("carroll gardens", "Brooklyn");
    ("park slope", "Brooklyn");
    ("east new york", "Brooklyn");
    ("greenpoint", "Brooklyn");
    ("williamsburg", "Brooklyn");
    ("rockaway", "Queens");
    ("broad channel", "Queens");
    ("jackson heights", "Queens");
    ("fresh meadows", "Queens");
    ("hillcrest", "Queens");
    ("east new york and starrett city", "Brooklyn");
    ("rockaways", "Queens");
    ("southern si", "Staten Island");
    ("northern si", "Staten Island") ].

(** The keyword lists of the fallback step of [infer_borough]. *)
Definition BRONX_KEYWORDS : list string :=
  ["bronx"; "fordham"; "tremont"; "crotona"; "morris"; "mott haven";
   "pelham"; "riverdale"; "soundview"; "williamsbridge"; "concourse";
   "parkchester"; "highbridge"].
Definition BROOKLYN_KEYWORDS : list string :=
  ["brooklyn"; "flatbush"; "bushwick"; "bedford"; "crown heights";
   "borough park"; "bensonhurst"; "bay ridge"; "brownsville"; "canarsie";
   "sheepshead"; "coney"; "flatlands"; "midwood"; "prospect"; "sunset park"].
Definition QUEENS_KEYWORDS : list string :=
  ["queens"; "jamaica"; "astoria"; "flushing"; "elmhurst";
   "forest hills"; "corona"; "far rockaway"; "ridgewood"; "kew gardens";
   "bayside"; "woodside"; "rego park"; "little neck"; "howard beach";
   "ozone park"].
Definition MANHATTAN_KEYWORDS : list string :=
  ["manhattan"; "harlem"; "upper west side"; "upper east side"; "chelsea";
   "soho"; "village"; "midtown"; "gramercy"; "financial district";
   "tribeca"; "morningside"; "battery park"; "inwood"; "lower east side"].
Definition STATEN_KEYWORDS : list string :=
  ["staten"; "tottenville"; "st. george"; "staten island"; "stapleton";
   "willowbrook"; "great kills"; "new dorp"; "richmond"; "south beach"].

(** Step 1: [for key, borough in BOROUGH_MAP_SECONDARY.items(): if key in n]. *)
Fixpoint secondary_lookup (n : string) (m : list (string * string)) : option string :=
  match m with
  | [] => None
  | (key, borough) :: m' =>
      if py_contains n key then Some borough else secondary_lookup n m'
  end.

(** [any(k in n for k in [...])]. *)
Definition any_in (n : string) (ks : list string) : bool :=
  existsb (py_contains n) ks.

(** [infer_borough], lines 72-118; [None] stands for a non-string. *)
Definition infer_borough (name : option string) : string :=
  match name with
  | None => "Unknown"
  | Some name =>
      if String.eqb (strip name) EmptyString then "Unknown"
      else
        let n := strip (lower name) in
        match secondary_lookup n BOROUGH_MAP_SECONDARY with
        | Some borough => borough
        | None =>
            if any_in n BRONX_KEYWORDS then "Bronx"
            else if any_in n BROOKLYN_KEYWORDS then "Brooklyn"
            else if any_in n QUEENS_KEYWORDS then "Queens"
            else if any_in n MANHATTAN_KEYWORDS then "Manhattan"
            else if any_in n STATEN_KEYWORDS then "Staten Island"
            else "Unknown"
        end
  end.

(** [infer_geo_level], lines 122-129. *)
Definition infer_geo_level (name : option string) : string :=
  match name with
  | None => "Unknown"
  | Some name =>
      if String.eqb (strip name) EmptyString then "Unknown"
      else
        let clean := strip (lower name) in
        let boroughs := ["bronx"; "brooklyn"; "queens"; "manhattan"; "staten island"] in
        if str_in clean boroughs then "Borough" else "Neighborhood"
  end.

Example infer_borough_ex1 : infer_borough (Some "Park Slope") = "Brooklyn". Proof. reflexivity. Qed.
Example infer_borough_ex2 : infer_borough (Some "Nowhere Place") = "Unknown". Proof. reflexivity. Qed.
Example infer_borough_ex3 : infer_borough (Some "Jackson Heights") = "Brooklyn". Proof. reflexivity. Qed.
Example infer_geo_level_ex : infer_geo_level (Some " Staten Island ") = "Borough"
  /\ infer_geo_level (Some "Harlem") = "Neighborhood" /\ infer_geo_level (Some "  ") = "Unknown".
Proof. repeat split; reflexivity. Qed.

(* ------------------------------------------------------------------ *)
(** ** pandas data frames and the run's effects *)

(** A cell: Python [None], a pandas missing value ([NaN]), a string, an
    int or a float. *)
Inductive pyval :=
| VNone
| VNaN
| VStr (s : string)
| VInt (z : Z)
| VFloat (f : pyfloat).

(** The exception a run ends with. *)
Inductive pyerr :=
| ValueError (cols : list string)
| KeyError (cols : list string)
| OverflowError (msg : string)
| StorageError (batch : nat).

(** What a run has done so far: a column of values converted, a batch
    executed, committed or rolled back, the verification query run. *)
Inductive event :=
| EConvert (col : string)
| EExec (b : nat) (batch : list (list pyval))
| ECommit (b : nat)
| ERollback (b : nat)
| EVerify.

(** A run: its log of events and its outcome (an exception or a value). *)
Definition M (A : Type) : Type := (list event * (pyerr + A))%type.

Definition ret {A} (a : A) : M A := ([], inr a).
Definition raise {A} (e : pyerr) : M A := ([], inl e).
Definition tell (ev : event) : M unit := ([ev], inr tt).
Definition bind {A B} (m : M A) (k : A -> M B) : M B :=
  match m with
  | (l, inl e) => (l, inl e)
  | (l, inr a) => let (l', r) := k a in ((l ++ l')%list, r)
  end.

Notation "x <- m ;; k" := (bind m (fun x => k))
  (at level 61, m at next level, right associativity).

(** [Series.map(g)] with a [g] that may raise: the first exception ends
    the map. *)
Fixpoint map_m {A B} (g : A -> M B) (l : list A) : M (list B) :=
  match l with
  | [] => ret []
  | x :: l' => y <- g x ;; ys <- map_m g l' ;; ret (y :: ys)
  end.

Record frame := mkframe { fcols : list string; frows : list (list pyval) }.

Fixpoint index_of (c : string) (l : list string) : option nat :=
  match l with
  | [] => None
  | c' :: l' =>
      if String.eqb c c' then Some O
      else match index_of c l' with Some i => Some (S i) | None => None end
  end.

Fixpoint replace_nth {A} (i : nat) (v : A) (l : list A) : list A :=
  match i, l with
  | O, _ :: l' => v :: l'
  | S i', x :: l' => x :: replace_nth i' v l'
  | _, [] => []
  end.

Fixpoint remove_nth {A} (i : nat) (l : list A) : list A :=
  match i, l with
  | O, _ :: l' => l'
  | S i', x :: l' => x :: remove_nth i' l'
  | _, [] => []
  end.

Definition cell (df : frame) (r : list pyval) (c : string) : pyval :=
  match index_of c (fcols df) with Some i => nth i r VNaN | None => VNaN end.

(** [df[c]]: raises [KeyError] when the column is absent. *)
Definition get_col (df : frame) (c : string) : M (list pyval) :=
  match index_of c (fcols df) with
  | None => raise (KeyError [c])
  | Some i => ret (map (fun r => nth i r VNaN) (frows df))
  end.

(** [df[c] = values]: replaces the column, or appends it. *)
Definition set_col (df : frame) (c : string) (vals : list pyval) : frame :=
  match index_of c (fcols df) with
  | Some i => mkframe (fcols df) (map (fun '(r, v) => replace_nth i v r) (combine (frows df) vals))
  | None => mkframe (fcols df ++ [c])%list (map (fun '(r, v) => (r ++ [v])%list) (combine (frows df) vals))
  end.

Definition set_const (df : frame) (c : string) (v : pyval) : frame :=
  set_col df c (repeat v (length (frows df))).

(** [df[dst] = df[src].map(g)]. *)
Definition map_col (df : frame) (src dst : string) (g : pyval -> pyval) : M frame :=
  vals <- get_col df src ;;
  _ <- tell (EConvert dst) ;;
  ret (set_col df dst (map g vals)).

(** [df.drop(columns=[c])] of a present column. *)
Definition drop_col (df : frame) (c : string) : frame :=
  match index_of c (fcols df) with
  | Some i => mkframe (remove_nth i (fcols df)) (map (remove_nth i) (frows df))
  | None => df
  end.

(** [df.applymap(lambda x: x.strip() if isinstance(x, str) else x)]. *)
Definition strip_cell (v : pyval) : pyval :=
  match v with VStr s => VStr (strip s) | _ => v end.
Definition strip_all (df : frame) : frame :=
  mkframe (fcols df) (map (map strip_cell) (frows df)).

(** [df[cols]] followed by [.values.tolist()]: [KeyError] listing the
    absent columns. *)
Definition select (df : frame) (cols : list string) : M (list (list pyval)) :=
  match filter (fun c => negb (str_in c (fcols df))) cols with
  | [] => ret (map (fun r => map (cell df r) cols) (frows df))
  | missing => raise (KeyError missing)
  end.

(** [df.where(pd.notnull(df), None)]. *)
Definition nan_to_none (v : pyval) : pyval :=
  match v with VNaN => VNone | _ => v end.

(** [s.replace(" ", "_")]. *)
Fixpoint spaces_to_underscores (s : string) : string :=
  match s with
  | EmptyString => EmptyString
  | String c s' =>
      String (if Ascii.eqb c " " then "_"%char else c) (spaces_to_underscores s')
  end.

(** [normalize_headers] (all scripts but the monthly-weather one):
    [c.strip().lower().replace(" ", "_")]. *)
Definition normalize_headers (cols : list string) : list string :=
  map (fun c => spaces_to_underscores (lower (strip c))) cols.

(** The Python object a [Series.map] hands to a converter: a missing
    value is the float [nan], whose [str] is ["nan"].  Converters are only
    applied to columns as read, whose cells are strings or [NaN]. *)
Definition conv_arg (v : pyval) : option string :=
  match v with
  | VNone => None
  | VNaN => Some "nan"
  | VStr s => Some s
  | VInt _ | VFloat _ => None
  end.

Definition of_Z (o : option Z) : pyval := match o with Some z => VInt z | None => VNone end.
Definition of_F (o : option pyfloat) : pyval := match o with Some f => VFloat f | None => VNone end.
Definition of_S (o : option string) : pyval := match o with Some s => VStr s | None => VNone end.

Example normalize_headers_ex :
  normalize_headers [" Created At "; "tree_id"] = ["created_at"; "tree_id"].
Proof. reflexivity. Qed.

Definition not_in_cols (df : frame) (c : string) : bool := negb (str_in c (fcols df)).

(* ------------------------------------------------------------------ *)
(** ** ingest_csv_to_mysql_1995.py, [main], lines 84-122 *)

Module Ingest1995.

Definition CSV_NAME : string := "1995_Street_Tree_Census_20251014 copy.csv".

Definition INSERT_COLUMNS : list string :=
  ["record_id"; "address"; "house_number"; "street"; "postcode_original";
   "community_board_original"; "site"; "species"; "diameter"; "condition";
   "health_3cat";
   "wires"; "sidewalk_condition"; "support_structure"; "borough";
   "x"; "y"; "longitude"; "latitude";
   "cb_new"; "zip_new"; "censustract_2010"; "censusblock_2010";
   "nta_2010"; "segmentid"; "spc_common"; "spc_latin"; "location";
   "council_district"; "bin"; "bbl";
   "file_name"].

Definition SRC_COLUMNS : list string :=
  ["recordid"; "address"; "house_number"; "street"; "postcode_original";
   "community_board_original"; "site"; "species"; "diameter"; "condition";
   "wires"; "sidewalk_condition"; "support_structure"; "borough";
   "x"; "y"; "longitude"; "latitude";
   "cb_new"; "zip_new"; "censustract_2010"; "censusblock_2010";
   "nta_2010"; "segmentid"; "spc_common"; "spc_latin"; "location";
   "council_district"; "bin"; "bbl"].

Definition int_cell (v : pyval) : pyval := of_Z (to_int (conv_arg v)).
Definition dec_cell (v : pyval) : pyval := of_F (to_dec (conv_arg v)).

(** From the header and the cells as read to the records handed to the
    loader.  The NaN clean-up of lines 117-122 only rewrites cell values
    and is not modelled. *)
Definition prepare (hdr : list string) (rows : list (list pyval)) : M (list (list pyval)) :=
  let df := mkframe (normalize_headers hdr) rows in
  match filter (not_in_cols df) SRC_COLUMNS with
  | (_ :: _) as missing => raise (ValueError missing)
  | [] =>
      let df := strip_all df in
      df <- map_col df "recordid" "record_id" int_cell ;;
      df <- map_col df "diameter" "diameter"
              (fun v => of_Z (to_int_bounded (conv_arg v) 0 400)) ;;
      df <- map_col df "wires" "wires" (fun v => of_Z (to_bool (conv_arg v))) ;;
      df <- map_col df "x" "x" dec_cell ;;
      df <- map_col df "y" "y" dec_cell ;;
      df <- map_col df "longitude" "longitude" dec_cell ;;
      df <- map_col df "latitude" "latitude" dec_cell ;;
      df <- map_col df "council_district" "council_district" int_cell ;;
      df <- map_col df "bin" "bin" int_cell ;;
      df <- map_col df "bbl" "bbl" int_cell ;;
      let df := set_const df "file_name" (VStr CSV_NAME) in
      df <- map_col df "condition" "health_3cat"
              (fun v => of_S (condition_to_health_3cat (conv_arg v))) ;;
      select df INSERT_COLUMNS
  end.

End Ingest1995.

(* ------------------------------------------------------------------ *)
(** ** ingest_csv_to_mysql_2015.py, [main], lines 67-89 *)

Module Ingest2015.

Definition FILE_NAME_FOR_PROVENANCE : string :=
  "2015_Street_Tree_Census_-_Tree_Data_20251014_copy.csv".

Definition INSERT_COLUMNS : list string :=
  ["tree_id"; "block_id"; "created_at"; "tree_dbh"; "stump_diam";
   "curb_loc"; "status"; "health"; "health_3cat";
   "spc_latin"; "spc_common"; "steward";
   "guards"; "sidewalk"; "user_type"; "problems"; "root_stone";
   "root_grate"; "root_other"; "trunk_wire"; "trnk_light";
   "trnk_other"; "brch_light"; "brch_shoe"; "brch_other"; "address";
   "postcode"; "zip_city"; "community_board"; "borocode";
   "borough"; "cncldist"; "st_assem"; "st_senate"; "nta";
   "nta_name"; "boro_ct"; "state"; "latitude"; "longitude"; "x_sp"; "y_sp";
   "council_district"; "census_tract"; "bin"; "bbl"; "file_name"].

Definition prepare (hdr : list string) (rows : list (list pyval)) : M (list (list pyval)) :=
  let df := mkframe (normalize_headers hdr) rows in
  let df := if str_in "id" (fcols df) then drop_col df "id" else df in
  df <- map_col df "created_at" "created_at" (fun v => of_S (to_iso_date (conv_arg v))) ;;
  df <- map_col df "health" "health_3cat" (fun v => of_S (health_to_health_3cat (conv_arg v))) ;;
  let df := set_const df "file_name" (VStr FILE_NAME_FOR_PROVENANCE) in
  let df := strip_all df in
  recs <- select df INSERT_COLUMNS ;;
  ret (map (map nan_to_none) recs).

End Ingest2015.

(* ------------------------------------------------------------------ *)
(** ** ingest_csv_file_to_mysql_heat_vulerabilitity_index_ranking.py,
       [main], lines 36-60 *)

Module IngestHeat.

Definition FILE_NAME_FOR_PROVENANCE : string :=
  "Heat_Vulnerability_Index_Rankings_20251018 copy.csv".

Definition INSERT_COLUMNS : list string :=
  ["zip_code_tabulation_area"; "heat_vulerability_index"].

Definition prepare (hdr : list string) (rows : list (list pyval)) : M (list (list pyval)) :=
  let df := mkframe (normalize_headers hdr) rows in
  let df := if str_in "id" (fcols df) then drop_col df "id" else df in
  let expected_without_file := filter (fun c => negb (String.eqb c "file_name")) INSERT_COLUMNS in
  match filter (not_in_cols df) expected_without_file with
  | (_ :: _) as missing => raise (ValueError missing)
  | [] =>
      let df := set_const df "file_name" (VStr FILE_NAME_FOR_PROVENANCE) in
      let df := strip_all df in
      recs <- select df INSERT_COLUMNS ;;
      ret (map (map nan_to_none) recs)
  end.

End IngestHeat.

(* ------------------------------------------------------------------ *)
(** ** ingest_monthly_temp_data_2022_to_2024.py, one CSV file of [main],
       lines 78-130 *)

Module IngestMonthly.

(** ["%d"] of a year of [1..9999]. *)
Definition year_unpadded (y : Z) : string :=
  if (1000 <=? y)%Z then pad_dec 4 y
  else if (100 <=? y)%Z then pad_dec 3 y
  else if (10 <=? y)%Z then pad_dec 2 y
  else pad_dec 1 y.

(** [to_date_month], lines 28-36: [strptime(s.strip(), "%Y-%m")] then
    [strftime("%Y-%m-01")] (the C library prints the year unpadded). *)
Definition to_date_month (v : pyval) : pyval :=
  match v with
  | VStr s =>
      match strptime (strip s) "%Y-%m" with
      | Some dt =>
          VStr (year_unpadded (year dt) ++ "-" ++ pad_dec 2 (month dt) ++ "-01")
      | None => VNone
      end
  | _ => VNone
  end.

(** [clean_numeric], lines 38-50: [None] and NaN give [None]; otherwise
    [str(val).strip()], [None] for an empty text or ["nan"], ["na"],
    ["null"] in any case, else [float(val)] ([None] when it raises). *)
Definition clean_numeric (v : pyval) : option pyfloat :=
  match v with
  | VNone | VNaN => None
  | VFloat f => if float_is_nan f then None else Some f
  | VInt z => Some (PFloat (int_str z))
  | VStr s =>
      let t := strip s in
      if String.eqb t "" || str_in (lower t) ["nan"; "na"; "null"] then None
      else py_float t
  end.

(** The lambda of line 97, [int(clean_numeric(x)) if clean_numeric(x)
    is not None else None]: [int] of a NaN raises [ValueError], of an
    infinity [OverflowError]. *)
Definition int_clean (v : pyval) : M (option Z) :=
  match clean_numeric v with
  | None => ret None
  | Some f =>
      match f64_of f with
      | F64NaN => raise (ValueError ["cannot convert float NaN to integer"])
      | F64Inf _ => raise (OverflowError "cannot convert float infinity to integer")
      | F64 neg n s => ret (Some (f64_trunc neg n s))
      end
  end.

(** [float(x)] of a cell, [None] when it raises. *)
Definition float_of_cell (v : pyval) : option pyfloat :=
  match v with
  | VNone => None
  | VNaN => Some (PFloat "nan")
  | VFloat f => Some f
  | VStr s => py_float s
  | VInt z => match round64_q z 1 with F64Inf _ => None | d => Some (f64_literal d) end
  end.

(** [f_to_c], lines 20-26: [(float(f) - 32) * 5.0 / 9.0] in binary64,
    each operation rounded; [None] for [None] or when [float] raises. *)
Definition f_to_c_f64 (d : f64) : f64 :=
  match d with
  | F64NaN => F64NaN
  | F64Inf neg => F64Inf neg
  | F64 neg n s =>
      match round64_q (f64_num neg n s - 32 * f64_den s) (f64_den s) with
      | F64 neg1 n1 s1 =>
          match round64 neg1 (5 * n1 * 2 ^ Z.max s1 0) (f64_den s1) with
          | F64 neg2 n2 s2 => round64 neg2 (n2 * 2 ^ Z.max s2 0) (9 * f64_den s2)
          | d2 => d2
          end
      | d1 => d1
      end
  end.

Definition f_to_c (v : pyval) : pyval :=
  match float_of_cell v with
  | Some f => VFloat (f64_literal (f_to_c_f64 (f64_of f)))
  | None => VNone
  end.

(** [pd.notnull]. *)
Definition notnull (v : pyval) : bool :=
  match v with
  | VNone | VNaN => false
  | VFloat f => negb (float_is_nan f)
  | _ => true
  end.

(** [df = df[df[c].notnull()]]. *)
Definition keep_notnull (df : frame) (c : string) : frame :=
  mkframe (fcols df) (filter (fun r => notnull (cell df r c)) (frows df)).

(** Lines 84-87: the first required column that is absent. *)
Fixpoint check_required (df : frame) (req : list string) : M unit :=
  match req with
  | [] => ret tt
  | c :: req' => if str_in c (fcols df) then check_required df req' else raise (ValueError [c])
  end.

(** [for col in cols: ...], one step per column. *)
Fixpoint for_cols (step : frame -> string -> M frame) (df : frame) (cols : list string)
  : M frame :=
  match cols with
  | [] => ret df
  | c :: cols' => df' <- step df c ;; for_cols step df' cols'
  end.

(** Line 101-105, one column: [df[col].map(clean_numeric)], or [None]
    when the column is absent. *)
Definition float_field (df : frame) (c : string) : M frame :=
  if str_in c (fcols df) then map_col df c c (fun v => of_F (clean_numeric v))
  else ret (set_const df c VNone).

Definition INSERT_COLUMNS : list string :=
  ["station_id"; "station_name"; "date_month";
   "cdsd"; "emnt"; "emxt"; "hdsd"; "tavg"; "tmax"; "tmin";
   "tavg_c"; "tmax_c"; "tmin_c";
   "file_name"].

(** [df.replace({np.nan: None})], line 129. *)
Definition replace_nan (v : pyval) : pyval :=
  match v with
  | VNaN => VNone
  | VFloat f => if float_is_nan f then VNone else v
  | _ => v
  end.

Section Prepare.

(** The value an int [n] has in the records when the column built by
    [Series.map] at line 97 holds the results [col]: pandas infers the
    column's dtype from all of them (float64 as soon as a [None] is
    there, so [12] becomes [12.0]).  Left abstract: the theorems hold
    for every choice. *)
Variable store_int : list (option Z) -> Z -> pyval.

(** Lines 95-99, one column. *)
Definition int_field (df : frame) (c : string) : M frame :=
  if str_in c (fcols df) then
    vals <- get_col df c ;;
    ints <- map_m int_clean vals ;;
    _ <- tell (EConvert c) ;;
    ret (set_col df c (map (fun o => match o with Some n => store_int ints n | None => VNone end) ints))
  else ret (set_const df c VNone).

(** The [records] of one file (header [hdr] as read, data rows [rows]).
    The float64 columns pandas builds from [clean_numeric] and [f_to_c]
    hold NaN where these give [None] or NaN; line 129 turns both back
    into [None], so the records are the same as with the Python values
    kept cell by cell, as here. *)
Definition prepare_file (csv_name : string) (hdr : list string) (rows : list (list pyval))
  : M (list (list pyval)) :=
  let df := mkframe (map (fun c => lower (strip c)) hdr) rows in
  _ <- check_required df ["station"; "name"; "date"] ;;
  st <- get_col df "station" ;;
  let df := set_col df "station_id" st in
  nm <- get_col df "name" ;;
  let df := set_col df "station_name" nm in
  df <- map_col df "date" "date_month" to_date_month ;;
  df <- for_cols int_field df ["cdsd"; "hdsd"] ;;
  df <- for_cols float_field df ["emnt"; "emxt"; "tavg"; "tmax"; "tmin"] ;;
  df <- map_col df "tavg" "tavg_c" f_to_c ;;
  df <- map_col df "tmax" "tmax_c" f_to_c ;;
  df <- map_col df "tmin" "tmin_c" f_to_c ;;
  let df := set_const df "file_name" (VStr csv_name) in
  recs <- select df INSERT_COLUMNS ;;
  let df := mkframe INSERT_COLUMNS recs in
  let df := keep_notnull df "date_month" in
  let df := keep_notnull df "station_id" in
  ret (map (map replace_nan) (frows df)).

End Prepare.

(** A concrete [store_int]: float64 when the column holds a [None],
    int64 otherwise (ints beyond 64 bits, which pandas may keep as
    objects, are not told apart). *)
Definition pandas_store_int (col : list (option Z)) (n : Z) : pyval :=
  if existsb (fun o => match o with None => true | Some _ => false end) col
  then VFloat (f64_literal (round64_q n 1)) else VInt n.

End IngestMonthly.

(* ------------------------------------------------------------------ *)
(** ** The batched insert

    [fails b] says whether [cur.executemany] (or the commit) of batch [b]
    raises a storage-layer error; the loop is deterministic, so any
    behaviour of the database is one such function. *)

Module Loader.

(** [records[start:end]]. *)
Definition slice {A} (l : list A) (start end_ : nat) : list A :=
  firstn (end_ - start) (skipn start l).

(** [math.ceil(total / BATCH_SIZE)]: for the record counts a list can
    hold (below 2^53) the float quotient rounds up to the exact ceiling. *)
Definition ceil_div (total size : nat) : nat := (total + size - 1) / size.

Section Loop.
Variable fails : nat -> bool.
Variable records : list (list pyval).
Variable BATCH_SIZE : nat.

Definition total : nat := length records.

(** The loop of ingest_csv_to_mysql_1995.py, lines 147-160 (also the
    2005, air-quality, heat and monthly scripts): [start] carried over
    from the previous batch's [end]. *)
Fixpoint batch_loop (n b start : nat) : M unit :=
  match n with
  | O => ret tt
  | S n' =>
      let end_ := Nat.min (start + BATCH_SIZE) total in
      let batch := slice records start end_ in
      _ <- tell (EExec b batch) ;;
      if fails b then
        _ <- tell (ERollback b) ;; raise (StorageError b)
      else
        _ <- tell (ECommit b) ;;
        batch_loop n' (S b) end_
  end.

(** The loop of ingest_csv_to_mysql_2015.py, lines 113-122 (also the
    Berkeley script): [start, end = b * BATCH_SIZE, min(...)]. *)
Fixpoint batch_loop_indexed (n b : nat) : M unit :=
  match n with
  | O => ret tt
  | S n' =>
      let start := b * BATCH_SIZE in
      let end_ := Nat.min ((b + 1) * BATCH_SIZE) total in
      let batch := slice records start end_ in
      _ <- tell (EExec b batch) ;;
      if fails b then
        _ <- tell (ERollback b) ;; raise (StorageError b)
      else
        _ <- tell (ECommit b) ;;
        batch_loop_indexed n' (S b)
  end.

(** Lines 144-164 of ingest_csv_to_mysql_1995.py: the batches, then the
    verification query.  An exception leaves the [try] block before it. *)
Definition load : M unit :=
  _ <- (if Nat.eqb total 0 then ret tt
        else batch_loop (ceil_div total BATCH_SIZE) 0 0) ;;
  tell EVerify.

Definition load_indexed : M unit :=
  _ <- (if Nat.eqb total 0 then ret tt
        else batch_loop_indexed (ceil_div total BATCH_SIZE) 0) ;;
  tell EVerify.

End Loop.

(** The table as the connection leaves it: [executemany] writes into the
    open transaction, [commit] makes it durable, [rollback] drops it. *)
Fixpoint replay (log : list event) (table pending : list (list pyval)) : list (list pyval) :=
  match log with
  | [] => table
  | EExec _ batch :: log' => replay log' table (pending ++ batch)%list
  | ECommit _ :: log' => replay log' (table ++ pending)%list []
  | ERollback _ :: log' => replay log' table []
  | _ :: log' => replay log' table pending
  end.

Definition table_after (log : list event) : list (list pyval) := replay log [] [].

(** The batches handed to [executemany], in order. *)
Definition executed_batches (log : list event) : list (list (list pyval)) :=
  flat_map (fun e => match e with EExec _ bt => [bt] | _ => [] end) log.

End Loader.

Example loader_ex :
  let recs := [[VInt 1]; [VInt 2]; [VInt 3]; [VInt 4]; [VInt 5]] in
  Loader.executed_batches (fst (Loader.load (fun _ => false) recs 2))
  = [[[VInt 1]; [VInt 2]]; [[VInt 3]; [VInt 4]]; [[VInt 5]]]
  /\ fst (Loader.load (fun b => Nat.eqb b 1) recs 2)
     = [EExec 0 [[VInt 1]; [VInt 2]]; ECommit 0; EExec 1 [[VInt 3]; [VInt 4]]; ERollback 1].
Proof. split; reflexivity. Qed.

(* ------------------------------------------------------------------ *)
(** ** The NaN clean-up before the insert (ingest_csv_to_mysql_1995.py,
       lines 117-122; ingest_csv_to_mysql_2005.py, lines 151-156) *)

(** [replace({np.nan: None, np.inf: None, -np.inf: None, "nan": None,
    "NaN": None})], then [None if (x == "" or str(x).lower() == "nan")
    else x], then [.where(pd.notnull(df), None)], on one cell. *)
Definition cleanup_cell (v : pyval) : pyval :=
  match v with
  | VNone | VNaN => VNone
  | VStr s => if String.eqb s "" || String.eqb (lower s) "nan" then VNone else VStr s
  | VFloat f => if float_is_nan f || float_is_inf f then VNone else VFloat f
  | VInt z => VInt z
  end.

(* ------------------------------------------------------------------ *)
(** ** ingest_csv_to_mysql_2005.py, [main], lines 109-158 *)

Module Ingest2005.

Definition CSV_NAME : string := "2005_Street_Tree_Census_20251014 copy.csv".

Definition INSERT_COLUMNS : list string :=
  ["cen_year"; "tree_dbh"; "address"; "tree_loc"; "pit_type"; "soil_lvl";
   "status"; "spc_latin"; "spc_common";
   "vert_other"; "vert_pgrd"; "vert_tgrd"; "vert_wall";
   "horz_blck"; "horz_grate"; "horz_plant"; "horz_other";
   "sidw_crack"; "sidw_raise";
   "wire_htap"; "wire_prime"; "wire_2nd"; "wire_other";
   "inf_canopy"; "inf_guard"; "inf_wires"; "inf_paving"; "inf_outlet"; "inf_shoes";
   "inf_lights"; "inf_other";
   "trunk_dmg"; "zipcode"; "zip_city"; "cb_num"; "borocode"; "boroname";
   "cncldist"; "st_assem"; "st_senate"; "nta"; "nta_name"; "boro_ct"; "state";
   "latitude"; "longitude"; "x_sp"; "y_sp";
   "objectid_1"; "census_tract"; "bin"; "bbl"; "location_1";
   "file_name";
   "health_3cat"].

Definition SRC_COLUMNS : list string :=
  ["objectid"; "cen_year"; "tree_dbh"; "address"; "tree_loc"; "pit_type"; "soil_lvl";
   "status"; "spc_latin"; "spc_common";
   "vert_other"; "vert_pgrd"; "vert_tgrd"; "vert_wall";
   "horz_blck"; "horz_grate"; "horz_plant"; "horz_other";
   "sidw_crack"; "sidw_raise";
   "wire_htap"; "wire_prime"; "wire_2nd"; "wire_other";
   "inf_canopy"; "inf_guard"; "inf_wires"; "inf_paving"; "inf_outlet"; "inf_shoes";
   "inf_lights"; "inf_other";
   "trunk_dmg"; "zipcode"; "zip_city"; "cb_num"; "borocode"; "boroname";
   "cncldist"; "st_assem"; "st_senate"; "nta"; "nta_name"; "boro_ct"; "state";
   "latitude"; "longitude"; "x_sp"; "y_sp"; "objectid_1"; "census_tract"; "bin"; "bbl";
   "location_1"].

Definition BOOL_COLS : list string :=
  ["vert_other"; "vert_pgrd"; "vert_tgrd"; "vert_wall";
   "horz_blck"; "horz_grate"; "horz_plant"; "horz_other";
   "sidw_crack"; "sidw_raise";
   "wire_htap"; "wire_prime"; "wire_2nd"; "wire_other";
   "inf_canopy"; "inf_guard"; "inf_wires"; "inf_paving"; "inf_outlet"; "inf_shoes";
   "inf_lights"; "inf_other"].

Definition INT_COLS : list string :=
  ["tree_dbh"; "borocode"; "cncldist"; "st_assem"; "st_senate"; "objectid_1"].
Definition DEC_COLS : list string := ["latitude"; "longitude"; "x_sp"; "y_sp"].
Definition YEAR_COLS : list string := ["cen_year"].

(** [for c in cols: if c in df: df[c] = df[c].map(g)]. *)
Fixpoint map_cols_if (df : frame) (cols : list string) (g : pyval -> pyval) : M frame :=
  match cols with
  | [] => ret df
  | c :: cols' =>
      df' <- (if str_in c (fcols df) then map_col df c c g else ret df) ;;
      map_cols_if df' cols' g
  end.

(** The [INT_COLS] loop: no membership test; [tree_dbh] is bounded. *)
Fixpoint map_int_cols (df : frame) (cols : list string) : M frame :=
  match cols with
  | [] => ret df
  | c :: cols' =>
      df' <- (if String.eqb c "tree_dbh"
              then map_col df c c (fun v => of_Z (to_int_bounded (conv_arg v) 0 400))
              else map_col df c c (fun v => of_Z (to_int (conv_arg v)))) ;;
      map_int_cols df' cols'
  end.

Definition prepare (hdr : list string) (rows : list (list pyval)) : M (list (list pyval)) :=
  let df := mkframe (normalize_headers hdr) rows in
  match filter (not_in_cols df) SRC_COLUMNS with
  | (_ :: _) as missing => raise (ValueError missing)
  | [] =>
      let df := if str_in "objectid" (fcols df) then drop_col df "objectid" else df in
      let df := strip_all df in
      df <- map_cols_if df BOOL_COLS (fun v => of_Z (to_bool (conv_arg v))) ;;
      df <- map_int_cols df INT_COLS ;;
      df <- map_cols_if df DEC_COLS (fun v => of_F (to_dec (conv_arg v))) ;;
      df <- map_cols_if df YEAR_COLS (fun v => of_Z (to_year (conv_arg v))) ;;
      let df := set_const df "file_name" (VStr CSV_NAME) in
      df <- map_col df "status" "health_3cat"
              (fun v => of_S (status_to_health_3cat (conv_arg v))) ;;
      recs <- select df INSERT_COLUMNS ;;
      ret (map (map cleanup_cell) recs)
  end.

End Ingest2005.

(* ------------------------------------------------------------------ *)
(** ** Row views of a frame *)

(** The cell of column [c] in row [k]. *)
Definition view (df : frame) (k : nat) (c : string) : pyval :=
  cell df (nth k (frows df) []) c.

(** Every row has one cell per column, as in a pandas frame. *)
Definition aligned (df : frame) : Prop :=
  Forall (fun r => length r = length (fcols df)) (frows df).

(** No whitespace at the start, no whitespace at the end. *)
Definition no_leading_space (s : string) : bool :=
  match s with EmptyString => true | String c _ => negb (is_py_space c) end.

Fixpoint no_trailing_space (s : string) : bool :=
  match s with
  | EmptyString => true
  | String c EmptyString => negb (is_py_space c)
  | String _ s' => no_trailing_space s'
  end.

(** The map of a function over the characters of a string. *)
Fixpoint smap (f : ascii -> ascii) (s : string) : string :=
  match s with
  | EmptyString => EmptyString
  | String c s' => String (f c) (smap f s')
  end.

Definition underscore_char (c : ascii) : ascii := if Ascii.eqb c " " then "_"%char else c.

(* ------------------------------------------------------------------ *)
(** ** Properties of the string primitives *)

(** A whitespace-only (or empty) string. *)
Definition is_blank (s : string) : bool := forallb is_py_space (list_ascii_of_string s).

(** The ordered rules of [infer_borough]: one per entry of
    [BOROUGH_MAP_SECONDARY], then one keyword set per borough. *)
Definition borough_rules : list (list string * string) :=
  (map (fun '(k, b) => ([k], b)) BOROUGH_MAP_SECONDARY ++
   [(BRONX_KEYWORDS, "Bronx"); (BROOKLYN_KEYWORDS, "Brooklyn");
    (QUEENS_KEYWORDS, "Queens"); (MANHATTAN_KEYWORDS, "Manhattan");
    (STATEN_KEYWORDS, "Staten Island")])%list.

Definition rule_fires (n : string) (rule : list string * string) : bool :=
  any_in n (fst rule).

Fixpoint first_rule (n : string) (rules : list (list string * string)) : string :=
  match rules with
  | [] => "Unknown"
  | r :: rs => if rule_fires n r then snd r else first_rule n rs
  end.

Definition health_vocab_1995_2005 : list (string * string) :=
  [("excellent", "Good"); ("e", "Good"); ("good", "Fair"); ("g", "Fair");
   ("poor", "Poor"); ("p", "Poor"); ("dead", "Poor"); ("d", "Poor");
   ("fair", "Poor"); ("f", "Poor")].

Definition health_vocab_2015 : list (string * string) :=
  [("good", "Good"); ("fair", "Fair"); ("poor", "Poor")].

Fixpoint assoc_str (k : string) (l : list (string * string)) : option string :=
  match l with
  | [] => None
  | (k', v) :: l' => if String.eqb k k' then Some v else assoc_str k l'
  end.

Definition BOROUGH_NAMES : list string :=
  ["bronx"; "brooklyn"; "queens"; "manhattan"; "staten island"].

(** A text every converter treats as missing: empty or whitespace-only,
    or a letter-case variant of "NA", "N/A" or "null". *)
Definition null_placeholder (s : string) : bool :=
  is_blank s || str_in (lower s) ["na"; "n/a"; "null"].

(** The monthly-weather header as the script normalizes it, the rows it
    keeps (date parsed as [YYYY-MM], station present) and the first three
    fields of the record it builds from a row of the frame [df0] read from
    the file: station, name and month. *)
Definition monthly_cols (hdr : list string) : list string :=
  map (fun c => lower (strip c)) hdr.





(** Batch [j] as the loops slice it, and the log of batches [a .. a+n-1]
    each executed then committed. *)
Definition bat (records : list (list pyval)) (S j : nat) : list (list pyval) :=
  Loader.slice records (j * S) (Nat.min ((j + 1) * S) (length records)).

Definition exec_commit_log (records : list (list pyval)) (S a n : nat) : list event :=
  flat_map (fun j => [EExec j (bat records S j); ECommit j]) (seq a n).

(** The first of the batches [b .. b+n-1] whose insert raises. *)
Fixpoint first_fail_from (fails : nat -> bool) (b n : nat) : option nat :=
  match n with
  | O => None
  | S n' => if fails b then Some b else first_fail_from fails (S b) n'
  end.

(** No name of the list occurs twice. *)
Fixpoint nodup_str (l : list string) : bool :=
  match l with
  | [] => true
  | c :: l' => negb (str_in c l') && nodup_str l'
  end.

Lemma rstrip_empty_iff (s : string) : rstrip s = EmptyString <-> is_blank s = true.
Proof.
  unfold is_blank. induction s as [|c s IH]; simpl; [tauto|].
  destruct (is_py_space c) eqn:Hc; simpl.
  - destruct (String.eqb (rstrip s) EmptyString) eqn:He.
    + apply String.eqb_eq in He. split; [intros _; apply IH, He | reflexivity].
    + apply String.eqb_neq in He. split; [discriminate | intros H; apply IH in H; contradiction].
  - split; discriminate.
Qed.

Lemma lstrip_blank (s : string) : is_blank (lstrip s) = is_blank s.
Proof.
  unfold is_blank. induction s as [|c s IH]; simpl; [reflexivity|].
  destruct (is_py_space c) eqn:Hc; simpl; [exact IH | rewrite Hc; reflexivity].
Qed.

Lemma strip_empty_iff (s : string) : strip s = EmptyString <-> is_blank s = true.
Proof. unfold strip. rewrite rstrip_empty_iff, lstrip_blank. tauto. Qed.

Lemma remove_commas_spaces_blank (s : string) :
  is_blank s = true -> remove_commas_spaces s = EmptyString.
Proof.
  unfold is_blank. induction s as [|c s IH]; simpl; [reflexivity|].
  intros H. apply andb_prop in H as [Hc Hs].
  rewrite Hc, orb_true_r. apply IH, Hs.
Qed.

Lemma lower_char_space (c : ascii) : is_py_space (lower_char c) = is_py_space c.
Proof. destruct c as [[] [] [] [] [] [] [] []]; reflexivity. Qed.

Lemma lower_blank (s : string) : is_blank (lower s) = is_blank s.
Proof.
  unfold is_blank. induction s as [|c s IH]; simpl; [reflexivity|].
  rewrite lower_char_space, IH. reflexivity.
Qed.

Lemma str_in_In (t : string) (l : list string) : str_in t l = true <-> In t l.
Proof.
  unfold str_in. rewrite existsb_exists. split.
  - intros [x [Hx Heq]]. apply String.eqb_eq in Heq. subst. exact Hx.
  - intros H. exists t. split; [exact H | apply String.eqb_refl].
Qed.

Lemma first_rule_secondary (n : string) (m : list (string * string)) rest :
  first_rule n (map (fun '(k, b) => ([k], b)) m ++ rest)%list
  = match secondary_lookup n m with Some b => b | None => first_rule n rest end.
Proof.
  induction m as [|[k b] m IH]; simpl; [reflexivity|].
  unfold rule_fires, any_in. simpl. rewrite orb_false_r.
  destruct (py_contains n k); [reflexivity | exact IH].
Qed.

Lemma infer_borough_first_rule (s : string) :
  is_blank s = false -> infer_borough (Some s) = first_rule (strip (lower s)) borough_rules.
Proof.
  intros Hb. unfold infer_borough, borough_rules.
  destruct (String.eqb (strip s) EmptyString) eqn:He.
  - apply String.eqb_eq, strip_empty_iff in He. congruence.
  - rewrite first_rule_secondary. reflexivity.
Qed.

Lemma first_rule_at (n : string) rules k rule :
  nth_error rules k = Some rule -> rule_fires n rule = true ->
  (forall j r, j < k -> nth_error rules j = Some r -> rule_fires n r = false) ->
  first_rule n rules = snd rule.
Proof.
  revert k. induction rules as [|r rs IH]; intros k Hk Hf Hbefore.
  - destruct k; discriminate.
  - destruct k as [|k]; simpl in Hk |- *.
    + injection Hk as ->. rewrite Hf. reflexivity.
    + rewrite (Hbefore 0 r ltac:(lia) eq_refl).
      apply (IH k Hk Hf). intros j r' Hj Hr'. apply (Hbefore (S j) r'); [lia | exact Hr'].
Qed.

Lemma first_rule_none (n : string) rules :
  (forall r, In r rules -> rule_fires n r = false) -> first_rule n rules = "Unknown".
Proof.
  induction rules as [|r rs IH]; intros H; simpl; [reflexivity|].
  rewrite (H r (or_introl eq_refl)). apply IH. intros r' Hr'. apply H. right. exact Hr'.
Qed.

Ltac case_str_eqs :=
  repeat match goal with
         | |- context [String.eqb ?t ?x] => destruct (String.eqb t x)
         end; reflexivity.

(* ------------------------------------------------------------------ *)
(** ** C1: the health buckets *)

(** C1 (counterexample): the converters do not all map ["good"] to
    ["Fair"]: the 2015 converter maps it to ["Good"]; and the label ["e"],
    outside the listed labels, maps to ["Good"] rather than null. *)
Lemma health_3cat_claim_fails :
  health_to_health_3cat (Some "good") = Some "Good"
  /\ health_to_health_3cat (Some "good") <> Some "Fair"
  /\ condition_to_health_3cat (Some "e") = Some "Good".
Proof. split; [reflexivity | split; [discriminate | reflexivity]]. Qed.

(** C1 (amended): on the trimmed, lower-cased label, by exact lookup,
    the 1995 and 2005 converters map excellent/e to Good, good/g to Fair,
    poor/p/dead/d/fair/f to Poor; the 2015 converter maps good, fair and
    poor to Good, Fair and Poor; every other label, and [None], to null. *)
Theorem health_3cat_by_script (s : string) :
  condition_to_health_3cat (Some s) = assoc_str (lower (strip s)) health_vocab_1995_2005
  /\ status_to_health_3cat (Some s) = assoc_str (lower (strip s)) health_vocab_1995_2005
  /\ health_to_health_3cat (Some s) = assoc_str (lower (strip s)) health_vocab_2015
  /\ condition_to_health_3cat None = None /\ status_to_health_3cat None = None
  /\ health_to_health_3cat None = None.
Proof.
  unfold condition_to_health_3cat, status_to_health_3cat, health_to_health_3cat,
    str_in; simpl.
  generalize (lower (strip s)) as t. intros t.
  repeat split; case_str_eqs.
Qed.

(* ------------------------------------------------------------------ *)
(** ** C10: the geo level *)

(** C10: [infer_geo_level] gives "Borough" exactly when the trimmed,
    lower-cased name is one of the five borough names; "Unknown" for a
    missing or non-string value and for a whitespace-only string;
    "Neighborhood" otherwise. *)
Theorem infer_geo_level_spec :
  infer_geo_level None = "Unknown"
  /\ (forall s, is_blank s = true -> infer_geo_level (Some s) = "Unknown")
  /\ (forall s, infer_geo_level (Some s) = "Borough" <-> In (strip (lower s)) BOROUGH_NAMES)
  /\ (forall s, is_blank s = false -> ~ In (strip (lower s)) BOROUGH_NAMES ->
        infer_geo_level (Some s) = "Neighborhood").
Proof.
  assert (Hblank : forall s, is_blank s = true -> infer_geo_level (Some s) = "Unknown").
  { intros s Hs. unfold infer_geo_level.
    apply strip_empty_iff in Hs. rewrite Hs. reflexivity. }
  assert (Hnb : forall s, is_blank s = false ->
            infer_geo_level (Some s) =
            if str_in (strip (lower s)) BOROUGH_NAMES then "Borough" else "Neighborhood").
  { intros s Hs. unfold infer_geo_level.
    destruct (String.eqb (strip s) EmptyString) eqn:He; [|reflexivity].
    apply String.eqb_eq, strip_empty_iff in He. congruence. }
  split; [reflexivity|]. split; [exact Hblank|]. split.
  - intros s. destruct (is_blank s) eqn:Hb.
    + rewrite (Hblank s Hb). split; [discriminate|].
      intros Hin. assert (Hl : is_blank (lower s) = true) by (rewrite lower_blank; exact Hb).
      apply strip_empty_iff in Hl. rewrite Hl in Hin.
      simpl in Hin. repeat (destruct Hin as [Hin|Hin]; [discriminate|]). contradiction.
    + rewrite (Hnb s Hb). rewrite <- str_in_In.
      destruct (str_in (strip (lower s)) BOROUGH_NAMES); split; congruence.
  - intros s Hb Hin. rewrite (Hnb s Hb).
    destruct (str_in (strip (lower s)) BOROUGH_NAMES) eqn:E; [|reflexivity].
    apply str_in_In in E. contradiction.
Qed.

(* ------------------------------------------------------------------ *)
(** ** C6: borough inference *)

(** C6: [infer_borough] returns "Unknown" for a missing, non-string or
    whitespace-only name; otherwise, on the lower-cased and trimmed name,
    the first rule that fires in the order exception dictionary then
    Bronx, Brooklyn, Queens, Manhattan, Staten Island keyword sets decides
    the borough, and "Unknown" when none fires.  "Park Slope" gives
    "Brooklyn" through a rule of the exception dictionary, and
    "Nowhere Place" gives "Unknown". *)
Theorem infer_borough_priority :
  infer_borough None = "Unknown"
  /\ (forall s, is_blank s = true -> infer_borough (Some s) = "Unknown")
  /\ (forall s k rule, is_blank s = false ->
        nth_error borough_rules k = Some rule ->
        rule_fires (strip (lower s)) rule = true ->
        (forall j r, j < k -> nth_error borough_rules j = Some r ->
                     rule_fires (strip (lower s)) r = false) ->
        infer_borough (Some s) = snd rule)
  /\ (forall s, is_blank s = false ->
        (forall r, In r borough_rules -> rule_fires (strip (lower s)) r = false) ->
        infer_borough (Some s) = "Unknown")
  /\ (infer_borough (Some "Park Slope") = "Brooklyn"
      /\ exists k rule, k < length BOROUGH_MAP_SECONDARY
         /\ nth_error borough_rules k = Some rule
         /\ rule_fires "park slope" rule = true
         /\ snd rule = "Brooklyn"
         /\ (forall j r, j < k -> nth_error borough_rules j = Some r ->
                        rule_fires "park slope" r = false))
  /\ infer_borough (Some "Nowhere Place") = "Unknown".
Proof.
  split; [reflexivity|]. split.
  { intros s Hs. unfold infer_borough. apply strip_empty_iff in Hs. rewrite Hs. reflexivity. }
  split.
  { intros s k rule Hb Hk Hf Hbefore. rewrite (infer_borough_first_rule s Hb).
    exact (first_rule_at _ _ k rule Hk Hf Hbefore). }
  split.
  { intros s Hb Hnone. rewrite (infer_borough_first_rule s Hb). apply first_rule_none, Hnone. }
  split; [|reflexivity].
  split; [reflexivity|].
  exists 10, (["slope"], "Brooklyn").
  split; [simpl; lia|]. split; [reflexivity|]. split; [reflexivity|]. split; [reflexivity|].
  intros j r Hj Hr.
  do 10 (destruct j as [|j]; [injection Hr as <-; reflexivity|]). lia.
Qed.

(* ------------------------------------------------------------------ *)
(** ** Null placeholders and the date parser *)

Lemma lower_char_inv (c : ascii) :
  (lower_char c = "n"%char -> c = "n"%char \/ c = "N"%char)
  /\ (lower_char c = "a"%char -> c = "a"%char \/ c = "A"%char)
  /\ (lower_char c = "u"%char -> c = "u"%char \/ c = "U"%char)
  /\ (lower_char c = "l"%char -> c = "l"%char \/ c = "L"%char)
  /\ (lower_char c = "/"%char -> c = "/"%char).
Proof.
  destruct c as [[] [] [] [] [] [] [] []];
    repeat split; intros H; vm_compute in H;
    first [discriminate H | left; reflexivity | right; reflexivity | reflexivity].
Qed.

Lemma lower_char_n_not_digit (c : ascii) : lower_char c = "n"%char -> is_digit c = false.
Proof. intros H. destruct (proj1 (lower_char_inv c) H) as [-> | ->]; reflexivity. Qed.

(** The strings whose lower-case form is "na", "n/a" or "null". *)
Lemma placeholder_words (s : string) :
  str_in (lower s) ["na"; "n/a"; "null"] = true ->
  In s ["na"; "nA"; "Na"; "NA"; "n/a"; "n/A"; "N/a"; "N/A";
        "null"; "nulL"; "nuLl"; "nuLL"; "nUll"; "nUlL"; "nULl"; "nULL";
        "Null"; "NulL"; "NuLl"; "NuLL"; "NUll"; "NUlL"; "NULl"; "NULL"].
Proof.
  intros H. apply str_in_In in H.
  destruct H as [H | [H | [H | []]]];
  destruct s as [|c1 [|c2 [|c3 [|c4 [|c5 s]]]]]; simpl in H; try discriminate;
  injection H; intros;
  repeat match goal with
         | H : "n"%char = lower_char ?c |- _ => destruct (proj1 (lower_char_inv c) (eq_sym H)) as [-> | ->]; clear H
         | H : "a"%char = lower_char ?c |- _ => destruct (proj1 (proj2 (lower_char_inv c)) (eq_sym H)) as [-> | ->]; clear H
         | H : "u"%char = lower_char ?c |- _ => destruct (proj1 (proj2 (proj2 (lower_char_inv c))) (eq_sym H)) as [-> | ->]; clear H
         | H : "l"%char = lower_char ?c |- _ => destruct (proj1 (proj2 (proj2 (proj2 (lower_char_inv c)))) (eq_sym H)) as [-> | ->]; clear H
         | H : "/"%char = lower_char ?c |- _ => rewrite (proj2 (proj2 (proj2 (proj2 (lower_char_inv c)))) (eq_sym H)); clear H
         end;
  simpl; tauto.
Qed.

Lemma regex_nondigit (c : ascii) (r : string) (ds : list directive) :
  is_digit c = false ->
  regex_matches (DirY :: ds) (String c r) = [] /\ regex_matches (Dirm :: ds) (String c r) = [].
Proof.
  intros H. cbn [regex_matches].
  assert (Hd : directive_matches DirY (String c r) = [] /\ directive_matches Dirm (String c r) = []).
  { destruct c as [[] [] [] [] [] [] [] []]; try discriminate H; split; reflexivity. }
  destruct Hd as [-> ->]. split; reflexivity.
Qed.

Lemma strptime_nondigit (c : ascii) (r f : string) :
  In f DATE_FORMATS -> is_digit c = false -> strptime (String c r) f = None.
Proof.
  intros Hf Hc. unfold strptime.
  destruct (regex_nondigit c r [DirLit "-"; Dirm; DirLit "-"; Dird] Hc) as [HY _].
  destruct (regex_nondigit c r [DirLit "/"; Dird; DirLit "/"; DirY] Hc) as [_ Hm1].
  destruct (regex_nondigit c r [DirLit "/"; Dird; DirLit "/"; Diry] Hc) as [_ Hm2].
  destruct (regex_nondigit c r [DirLit "-"; Dird; DirLit "-"; DirY] Hc) as [_ Hm3].
  destruct (regex_nondigit c r [DirLit "-"; Dird; DirLit "-"; Diry] Hc) as [_ Hm4].
  simpl in Hf. repeat destruct Hf as [<- | Hf]; try contradiction.
  - change (compile_fmt "%Y-%m-%d") with [DirY; DirLit "-"; Dirm; DirLit "-"; Dird]. now rewrite HY.
  - change (compile_fmt "%m/%d/%Y") with [Dirm; DirLit "/"; Dird; DirLit "/"; DirY]. now rewrite Hm1.
  - change (compile_fmt "%m/%d/%y") with [Dirm; DirLit "/"; Dird; DirLit "/"; Diry]. now rewrite Hm2.
  - change (compile_fmt "%m-%d-%Y") with [Dirm; DirLit "-"; Dird; DirLit "-"; DirY]. now rewrite Hm3.
  - change (compile_fmt "%m-%d-%y") with [Dirm; DirLit "-"; Dird; DirLit "-"; Diry]. now rewrite Hm4.
Qed.

Lemma try_formats_none_iff (t : string) (fmts : list string) :
  try_formats t fmts = None <-> forall f, In f fmts -> strptime t f = None.
Proof.
  induction fmts as [|f fs IH]; simpl.
  - split; [intros _ f [] | reflexivity].
  - destruct (strptime t f) eqn:E.
    + split; [discriminate | intros H; rewrite (H f (or_introl eq_refl)) in E; discriminate].
    + rewrite IH. split.
      * intros H f' [<- | Hf']; [exact E | apply H, Hf'].
      * intros H f' Hf'. apply H. right. exact Hf'.
Qed.

Lemma try_formats_some_iff (t : string) (fmts : list string) (d : string) :
  try_formats t fmts = Some d <->
  exists k fmt dt, nth_error fmts k = Some fmt /\ strptime t fmt = Some dt
    /\ (forall j f, j < k -> nth_error fmts j = Some f -> strptime t f = None)
    /\ d = isoformat dt.
Proof.
  induction fmts as [|f fs IH]; simpl.
  - split; [discriminate | intros [k [fmt [dt [Hk _]]]]; destruct k; discriminate].
  - destruct (strptime t f) as [dt|] eqn:E.
    + split.
      * intros H. injection H as <-. exists 0, f, dt. repeat split; auto. intros j f' Hj. lia.
      * intros [k [fmt [dt' [Hk [Hp [Hbefore ->]]]]]].
        destruct k as [|k].
        -- simpl in Hk. injection Hk as <-. rewrite E in Hp. injection Hp as ->. reflexivity.
        -- rewrite (Hbefore 0 f ltac:(lia) eq_refl) in E. discriminate.
    + rewrite IH. split.
      * intros [k [fmt [dt [Hk [Hp [Hbefore Hd]]]]]].
        exists (S k), fmt, dt. repeat split; auto.
        intros j f' Hj Hf'. destruct j as [|j].
        -- simpl in Hf'. injection Hf' as <-. exact E.
        -- apply (Hbefore j f'); [lia | exact Hf'].
      * intros [k [fmt [dt [Hk [Hp [Hbefore Hd]]]]]].
        destruct k as [|k].
        -- simpl in Hk. injection Hk as <-. rewrite E in Hp. discriminate.
        -- exists k, fmt, dt. repeat split; auto.
           intros j f' Hj Hf'. apply (Hbefore (S j) f'); [lia | exact Hf'].
Qed.

Lemma strptime_valid (t f : string) (dt : date) :
  strptime t f = Some dt -> valid_date dt = true.
Proof.
  unfold strptime. destruct (regex_matches (compile_fmt f) t) as [|[caps rest] ms]; [discriminate|].
  destruct (negb (String.eqb rest EmptyString)); [discriminate|].
  match goal with |- context [if valid_date ?d then _ else _] => destruct (valid_date d) eqn:E end;
    [intros H; injection H as <-; exact E | discriminate].
Qed.

(** The placeholder guard of [to_iso_date] changes nothing: no pattern
    parses a placeholder. *)
Lemma to_iso_date_try_formats (s : string) :
  to_iso_date (Some s) = try_formats (strip s) DATE_FORMATS.
Proof.
  unfold to_iso_date. generalize (strip s) as t. intros t.
  destruct (String.eqb t EmptyString || str_in (lower t) ["na"; "n/a"; "null"]) eqn:E;
    [|reflexivity].
  symmetry. apply try_formats_none_iff. intros f Hf.
  apply orb_prop in E as [E | E].
  - apply String.eqb_eq in E. subst t.
    simpl in Hf. repeat destruct Hf as [<- | Hf]; try contradiction; reflexivity.
  - destruct t as [|c r]; [simpl in E; discriminate|].
    apply strptime_nondigit; [exact Hf|].
    apply str_in_In in E. simpl in E.
    destruct E as [E | [E | [E | []]]];
      (destruct r as [|c2 r]; [discriminate|]); injection E; intros;
      apply lower_char_n_not_digit; congruence.
Qed.

(* ------------------------------------------------------------------ *)
(** ** C7: placeholders convert to null *)

(** C7: for an empty or whitespace-only text, or any letter-case variant
    of "NA", "N/A" or "null", the integer, bounded-integer (any bounds),
    year, decimal, tri-state boolean, date and category-bucket converters
    all return null (the converters are total: none raises). *)
Theorem null_placeholders_convert_to_null (s : string) (low high : Z)
  (H : null_placeholder s = true) :
  to_int (Some s) = None /\ to_int_bounded (Some s) low high = None
  /\ to_year (Some s) = None /\ to_dec (Some s) = None
  /\ to_bool (Some s) = None /\ to_iso_date (Some s) = None
  /\ condition_to_health_3cat (Some s) = None
  /\ status_to_health_3cat (Some s) = None
  /\ health_to_health_3cat (Some s) = None.
Proof.
  apply orb_prop in H as [Hb | Hw].
  - pose proof (remove_commas_spaces_blank s Hb) as Hr.
    apply strip_empty_iff in Hb.
    assert (Hi : to_int (Some s) = None) by (unfold to_int; rewrite Hr; reflexivity).
    unfold to_int_bounded, to_year. rewrite Hi.
    unfold to_dec, to_bool, to_iso_date, condition_to_health_3cat,
      status_to_health_3cat, health_to_health_3cat.
    rewrite Hr, Hb. repeat split; reflexivity.
  - apply placeholder_words in Hw. simpl in Hw.
    repeat destruct Hw as [<- | Hw]; try contradiction;
      repeat split; reflexivity.
Qed.

(* ------------------------------------------------------------------ *)
(** ** C8: the date converter *)

(** C8: on the trimmed text, [to_iso_date] gives a date exactly when some
    pattern of the fixed list parses it, and then it is the ISO rendering
    ["%04d-%02d-%02d"] of the calendar date (a valid one) parsed by the
    first such pattern; it gives null exactly when no pattern parses the
    text.  It is a total function: it never raises. *)
Theorem to_iso_date_first_pattern (s d : string) :
  DATE_FORMATS = ["%Y-%m-%d"; "%m/%d/%Y"; "%m/%d/%y"; "%m-%d-%Y"; "%m-%d-%y"]
  /\ (to_iso_date (Some s) = Some d <->
      exists k fmt dt, nth_error DATE_FORMATS k = Some fmt
        /\ strptime (strip s) fmt = Some dt
        /\ (forall j f, j < k -> nth_error DATE_FORMATS j = Some f ->
                        strptime (strip s) f = None)
        /\ valid_date dt = true /\ d = isoformat dt)
  /\ (to_iso_date (Some s) = None <->
      forall f, In f DATE_FORMATS -> strptime (strip s) f = None).
Proof.
  split; [reflexivity|].
  rewrite to_iso_date_try_formats. split.
  - rewrite try_formats_some_iff. split.
    + intros [k [fmt [dt [Hk [Hp [Hb Hd]]]]]].
      exists k, fmt, dt. repeat split; auto. exact (strptime_valid _ _ _ Hp).
    + intros [k [fmt [dt [Hk [Hp [Hb [_ Hd]]]]]]]. exists k, fmt, dt. auto.
  - apply try_formats_none_iff.
Qed.

(* ------------------------------------------------------------------ *)
(** ** The batched insert *)

Lemma bind_tell {A} (e : event) (m : M A) :
  bind (tell e) (fun _ => m) = (e :: fst m, snd m).
Proof. destruct m. reflexivity. Qed.

Lemma first_fail_from_range (fails : nat -> bool) (b n i : nat) :
  first_fail_from fails b n = Some i -> b <= i < b + n /\ fails i = true
    /\ forall j, b <= j < i -> fails j = false.
Proof.
  revert b. induction n as [|n IH]; intros b H; simpl in H; [discriminate|].
  destruct (fails b) eqn:Hb.
  - injection H as <-. repeat split; [lia | lia | exact Hb | intros; lia].
  - destruct (IH (S b) H) as [Hr [Hi Hbefore]]. repeat split; [lia | lia | exact Hi |].
    intros j Hj. destruct (Nat.eq_dec j b) as [-> | Hne]; [exact Hb | apply Hbefore; lia].
Qed.

Lemma exec_commit_log_S (records : list (list pyval)) (S a n : nat) :
  exec_commit_log records S a (Datatypes.S n)
  = EExec a (bat records S a) :: ECommit a :: exec_commit_log records S (Datatypes.S a) n.
Proof. reflexivity. Qed.

Section LoopSpec.
Variable fails : nat -> bool.
Variable records : list (list pyval).
Variable S : nat.

(** The loop that carries [start] over runs batch [b] on
    [records[b*S : min((b+1)*S, total)]] as long as the previous batches
    end before the last record. *)
Lemma batch_loop_spec (n b : nat) :
  (b + n - 1) * S < length records ->
  Loader.batch_loop fails records S n b (b * S) =
  match first_fail_from fails b n with
  | Some i => ((exec_commit_log records S b (i - b) ++ [EExec i (bat records S i); ERollback i])%list,
               inl (StorageError i))
  | None => (exec_commit_log records S b n, inr tt)
  end.
Proof.
  revert b. induction n as [|n IH]; intros b Hlt; [reflexivity|].
  cbn [Loader.batch_loop first_fail_from].
  replace (Nat.min (b * S + S) (Loader.total records)) with (Nat.min ((b + 1) * S) (length records))
    by (unfold Loader.total; f_equal; lia).
  fold (bat records S b). rewrite bind_tell.
  destruct (fails b) eqn:Hb.
  - simpl. rewrite Nat.sub_diag. reflexivity.
  - rewrite bind_tell. destruct n as [|n].
    + simpl. reflexivity.
    + replace (Nat.min ((b + 1) * S) (length records)) with (Datatypes.S b * S) by nia.
      rewrite IH by lia.
      destruct (first_fail_from fails (Datatypes.S b) (Datatypes.S n)) as [i|] eqn:Hf; simpl.
      * apply first_fail_from_range in Hf as [Hr _].
        replace (i - b) with (Datatypes.S (i - Datatypes.S b)) by lia.
        rewrite exec_commit_log_S. reflexivity.
      * reflexivity.
Qed.

(** The loop indexed by [b] slices the same batches, with no condition. *)
Lemma batch_loop_indexed_spec (n b : nat) :
  Loader.batch_loop_indexed fails records S n b =
  match first_fail_from fails b n with
  | Some i => ((exec_commit_log records S b (i - b) ++ [EExec i (bat records S i); ERollback i])%list,
               inl (StorageError i))
  | None => (exec_commit_log records S b n, inr tt)
  end.
Proof.
  revert b. induction n as [|n IH]; intros b; [reflexivity|].
  cbn [Loader.batch_loop_indexed first_fail_from].
  fold (bat records S b). rewrite bind_tell.
  destruct (fails b) eqn:Hb.
  - simpl. rewrite Nat.sub_diag. reflexivity.
  - rewrite bind_tell. rewrite IH.
    destruct (first_fail_from fails (Datatypes.S b) n) as [i|] eqn:Hf; simpl.
    + apply first_fail_from_range in Hf as [Hr _].
      replace (i - b) with (Datatypes.S (i - Datatypes.S b)) by lia.
      rewrite exec_commit_log_S. reflexivity.
    + reflexivity.
Qed.

Lemma ceil_div_bounds (HS : 0 < S) (R : nat) :
  0 < R -> (Loader.ceil_div R S - 1) * S < R /\ R <= Loader.ceil_div R S * S.
Proof.
  intros HR. unfold Loader.ceil_div.
  pose proof (Nat.div_mod (R + S - 1) S ltac:(lia)) as Hd.
  pose proof (Nat.mod_upper_bound (R + S - 1) S ltac:(lia)) as Hm.
  set (q := (R + S - 1) / S) in *. set (r := (R + S - 1) mod S) in *.
  split; nia.
Qed.

Lemma ceil_div_pos (HS : 0 < S) (R : nat) : 0 < R -> 0 < Loader.ceil_div R S.
Proof.
  intros HR. destruct (ceil_div_bounds HS R HR) as [_ H].
  destruct (Loader.ceil_div R S); simpl in H; lia.
Qed.

End LoopSpec.

Lemma firstn_split {A} (l : list A) (a b : nat) :
  a <= b -> (firstn a l ++ firstn (b - a) (skipn a l))%list = firstn b l.
Proof.
  revert b l. induction a as [|a IH]; intros b l Hab.
  - simpl. rewrite Nat.sub_0_r. reflexivity.
  - destruct l as [|x l]; destruct b as [|b]; simpl; try lia; try (destruct (b - a); reflexivity).
    f_equal. apply IH. lia.
Qed.

Lemma concat_batches (records : list (list pyval)) (S k : nat) :
  (forall j, j < k -> j * S <= length records) ->
  concat (map (bat records S) (seq 0 k)) = firstn (k * S) records.
Proof.
  induction k as [|k IH]; intros Hk; [reflexivity|].
  rewrite seq_S, map_app, concat_app, IH by (intros j Hj; apply Hk; lia).
  simpl. rewrite app_nil_r. unfold bat, Loader.slice.
  rewrite firstn_split by (specialize (Hk k ltac:(lia)); lia).
  destruct (Nat.le_gt_cases ((k + 1) * S) (length records)) as [Hle | Hgt].
  - rewrite Nat.min_l by exact Hle. f_equal. lia.
  - rewrite Nat.min_r by lia. rewrite firstn_all2 by lia.
    symmetry. apply firstn_all2. nia.
Qed.

Lemma replay_exec_commit (records : list (list pyval)) (S a k : nat) rest table :
  Loader.replay (exec_commit_log records S a k ++ rest)%list table []
  = Loader.replay rest (table ++ concat (map (bat records S) (seq a k)))%list [].
Proof.
  revert a table. induction k as [|k IH]; intros a table.
  - simpl. rewrite app_nil_r. reflexivity.
  - rewrite exec_commit_log_S. simpl. rewrite IH, app_assoc. reflexivity.
Qed.

Lemma executed_exec_commit (records : list (list pyval)) (S a k : nat) rest :
  Loader.executed_batches (exec_commit_log records S a k ++ rest)%list
  = (map (bat records S) (seq a k) ++ Loader.executed_batches rest)%list.
Proof.
  revert a. induction k as [|k IH]; intros a; [reflexivity|].
  rewrite exec_commit_log_S. simpl. rewrite IH. reflexivity.
Qed.

Lemma load_spec (fails : nat -> bool) (records : list (list pyval)) (S : nat) (HS : 0 < S) :
  match first_fail_from fails 0 (Loader.ceil_div (length records) S) with
  | Some i =>
      Loader.load fails records S
      = ((exec_commit_log records S 0 i ++ [EExec i (bat records S i); ERollback i])%list,
         inl (StorageError i))
      /\ Loader.table_after (fst (Loader.load fails records S)) = firstn (i * S) records
  | None =>
      Loader.load fails records S
      = ((exec_commit_log records S 0 (Loader.ceil_div (length records) S) ++ [EVerify])%list,
         inr tt)
      /\ Loader.table_after (fst (Loader.load fails records S)) = records
  end.
Proof.
  unfold Loader.load, Loader.total.
  destruct (Nat.eqb (length records) 0) eqn:H0.
  - apply Nat.eqb_eq in H0. rewrite H0.
    replace (Loader.ceil_div 0 S) with 0
      by (unfold Loader.ceil_div; symmetry; apply Nat.div_small; lia).
    destruct records; [|discriminate]. split; reflexivity.
  - apply Nat.eqb_neq in H0.
    set (N := Loader.ceil_div (length records) S).
    destruct (ceil_div_bounds S HS (length records) ltac:(lia)) as [Hlo Hhi]. fold N in Hlo, Hhi.
    pose proof (batch_loop_spec fails records S N 0 ltac:(simpl; exact Hlo)) as Hl.
    rewrite Nat.mul_0_l in Hl. rewrite Hl.
    destruct (first_fail_from fails 0 N) as [i|] eqn:Hf.
    + apply first_fail_from_range in Hf as [Hr _].
      rewrite Nat.sub_0_r. split; [reflexivity|].
      unfold Loader.table_after. simpl fst. rewrite replay_exec_commit. simpl.
      apply concat_batches. intros j Hj. nia.
    + simpl. split; [reflexivity|].
      unfold Loader.table_after. rewrite replay_exec_commit. simpl.
      rewrite concat_batches by (intros j Hj; nia).
      apply firstn_all2. lia.
Qed.

Lemma load_indexed_spec (fails : nat -> bool) (records : list (list pyval)) (S : nat) :
  Loader.load_indexed fails records S
  = match first_fail_from fails 0 (Loader.ceil_div (length records) S) with
    | Some i => ((exec_commit_log records S 0 i ++ [EExec i (bat records S i); ERollback i])%list,
                 inl (StorageError i))
    | None => ((exec_commit_log records S 0 (Loader.ceil_div (length records) S) ++ [EVerify])%list,
               inr tt)
    end.
Proof.
  unfold Loader.load_indexed, Loader.total.
  destruct (Nat.eqb (length records) 0) eqn:H0.
  - apply Nat.eqb_eq in H0. rewrite H0. destruct records; [|discriminate].
    destruct S as [|S]; [reflexivity|].
    unfold Loader.ceil_div. rewrite Nat.div_small by lia. reflexivity.
  - rewrite batch_loop_indexed_spec.
    destruct (first_fail_from fails 0 (Loader.ceil_div (length records) S)); simpl;
      [rewrite Nat.sub_0_r|]; reflexivity.
Qed.

Lemma first_fail_from_never (b n : nat) : first_fail_from (fun _ => false) b n = None.
Proof. revert b. induction n as [|n IH]; intros b; [reflexivity | apply IH]. Qed.

(* ------------------------------------------------------------------ *)
(** ** C4: fail-fast loading *)

(** C4: with [N = ceil(total / BATCH_SIZE)] batches, when batch [i] is the
    first whose insert raises, the run logs exactly: batches [0 .. i-1]
    each executed then committed, batch [i] executed then rolled back,
    and it ends with the storage error (no later batch, no verification
    query); the table then holds exactly the committed rows
    [records[0 : i*BATCH_SIZE]].  When no batch raises, every batch is
    executed and committed in order, then the verification query runs,
    and the table holds all the records. *)
Theorem load_fail_fast (fails : nat -> bool) (records : list (list pyval)) (S : nat)
  (HS : 0 < S) :
  match first_fail_from fails 0 (Loader.ceil_div (length records) S) with
  | Some i =>
      Loader.load fails records S
      = ((exec_commit_log records S 0 i ++ [EExec i (bat records S i); ERollback i])%list,
         inl (StorageError i))
      /\ Loader.table_after (fst (Loader.load fails records S)) = firstn (i * S) records
  | None =>
      Loader.load fails records S
      = ((exec_commit_log records S 0 (Loader.ceil_div (length records) S) ++ [EVerify])%list,
         inr tt)
      /\ Loader.table_after (fst (Loader.load fails records S)) = records
  end.
Proof. exact (load_spec fails records S HS). Qed.

(* ------------------------------------------------------------------ *)
(** ** C9: batching *)

(** C9: for [R >= 1] records and a batch size [S > 0], both loop styles
    hand [executemany] the same [ceil(R/S)] batches; batch [k] is
    [records[k*S : min((k+1)*S, R)]], every batch but the last has
    exactly [S] records, and the batches concatenated are the records
    in their original order. *)
Theorem batches_cover_records (records : list (list pyval)) (S : nat)
  (HS : 0 < S) (HR : 1 <= length records) :
  let R := length records in
  let bs := Loader.executed_batches (fst (Loader.load (fun _ => false) records S)) in
  Loader.executed_batches (fst (Loader.load_indexed (fun _ => false) records S)) = bs
  /\ length bs = Loader.ceil_div R S
  /\ (forall k, k < length bs ->
        nth k bs [] = Loader.slice records (k * S) (Nat.min ((k + 1) * S) R))
  /\ concat bs = records
  /\ (forall k, k + 1 < length bs -> length (nth k bs []) = S).
Proof.
  cbv zeta.
  pose proof (load_spec (fun _ => false) records S HS) as Hl.
  rewrite first_fail_from_never in Hl. destruct Hl as [Hl _].
  pose proof (load_indexed_spec (fun _ => false) records S) as Hli.
  rewrite first_fail_from_never in Hli.
  rewrite Hl, Hli. clear Hl Hli. simpl fst.
  rewrite executed_exec_commit. simpl. rewrite app_nil_r.
  set (R := length records) in *.
  destruct (ceil_div_bounds S HS R ltac:(unfold R; lia)) as [Hlo Hhi].
  set (N := Loader.ceil_div R S) in *.
  split; [reflexivity|].
  split; [rewrite length_map, length_seq; reflexivity|].
  split.
  { intros k Hk. rewrite length_map, length_seq in Hk.
    rewrite (nth_indep _ [] (bat records S 0)) by (rewrite length_map, length_seq; exact Hk).
    rewrite map_nth, seq_nth by exact Hk. reflexivity. }
  split.
  { rewrite concat_batches by (intros j Hj; nia). apply firstn_all2. exact Hhi. }
  intros k Hk. rewrite length_map, length_seq in Hk.
  rewrite (nth_indep _ [] (bat records S 0)) by (rewrite length_map, length_seq; lia).
  rewrite map_nth, seq_nth by lia. simpl.
  unfold bat, Loader.slice. fold R.
  rewrite Nat.min_l by nia.
  rewrite length_firstn, length_skipn. fold R. nia.
Qed.

(* ------------------------------------------------------------------ *)
(** ** Frame operations *)

Lemma bind_ret {A B} (a : A) (k : A -> M B) : bind (ret a) k = k a.
Proof. unfold bind, ret. destruct (k a). reflexivity. Qed.

Lemma bind_raise {A B} (e : pyerr) (k : A -> M B) : bind (raise e) k = ([], inl e).
Proof. reflexivity. Qed.

Lemma index_of_none (c : string) (l : list string) : index_of c l = None <-> ~ In c l.
Proof.
  induction l as [|x l IH]; simpl; [tauto|].
  destruct (String.eqb c x) eqn:E.
  - apply String.eqb_eq in E. subst. split; [discriminate | tauto].
  - apply String.eqb_neq in E. destruct (index_of c l) eqn:E2.
    + split; [discriminate|]. intros H. exfalso. apply H. right.
      destruct (in_dec string_dec c l) as [Hin|Hout]; [exact Hin|].
      apply IH in Hout. discriminate.
    + split; [|reflexivity]. intros _ [H | H]; [congruence|]. revert H. apply IH. reflexivity.
Qed.

Lemma index_of_some (c : string) (l : list string) (i : nat) :
  index_of c l = Some i -> i < length l.
Proof.
  revert i. induction l as [|x l IH]; intros i H; simpl in H; [discriminate|].
  destruct (String.eqb c x); [injection H as <-; simpl; lia|].
  destruct (index_of c l) eqn:E; [injection H as <-; simpl; specialize (IH n eq_refl); lia | discriminate].
Qed.

Lemma index_of_app_in (c : string) (l l' : list string) :
  In c l -> index_of c (l ++ l')%list = index_of c l.
Proof.
  induction l as [|x l IH]; simpl; [tauto|].
  intros H. destruct (String.eqb c x) eqn:E; [reflexivity|].
  apply String.eqb_neq in E. rewrite IH; [reflexivity|]. destruct H; [congruence | exact H].
Qed.

Lemma index_of_app_out (c : string) (l l' : list string) :
  ~ In c l -> index_of c (l ++ l')%list
              = match index_of c l' with Some i => Some (length l + i) | None => None end.
Proof.
  induction l as [|x l IH]; simpl; intros H.
  - destruct (index_of c l'); reflexivity.
  - destruct (String.eqb c x) eqn:E; [apply String.eqb_eq in E; subst; tauto|].
    rewrite IH by tauto. destruct (index_of c l'); reflexivity.
Qed.

Lemma repeat_as_map {A B} (v : B) (l : list A) : repeat v (length l) = map (fun _ => v) l.
Proof. induction l as [|x l IH]; simpl; [reflexivity | rewrite IH; reflexivity]. Qed.

Lemma get_col_at (df : frame) (c : string) (i : nat) :
  index_of c (fcols df) = Some i -> get_col df c = ret (map (fun r => nth i r VNaN) (frows df)).
Proof. intros H. unfold get_col. rewrite H. reflexivity. Qed.

Lemma fcols_set_col (df : frame) (c : string) (vals : list pyval) (x : string) :
  In x (fcols (set_col df c vals)) <-> In x (fcols df) \/ x = c.
Proof.
  unfold set_col. destruct (index_of c (fcols df)) eqn:E; simpl.
  - split; [tauto|]. intros [H | ->]; [exact H|].
    destruct (in_dec string_dec c (fcols df)) as [Hin|Hout]; [exact Hin|].
    apply index_of_none in Hout. congruence.
  - rewrite in_app_iff. simpl. split.
    + intros [H | [H | []]]; [left; exact H | right; congruence].
    + intros [H | H]; [left; exact H | right; left; congruence].
Qed.

Lemma get_col_present (df : frame) (c : string) :
  In c (fcols df) -> exists vals, get_col df c = ret vals.
Proof.
  intros H. unfold get_col. destruct (index_of c (fcols df)) eqn:E.
  - eexists. reflexivity.
  - apply index_of_none in E. contradiction.
Qed.

Lemma map_col_present (df : frame) (src dst : string) (g : pyval -> pyval) :
  In src (fcols df) -> exists df', map_col df src dst g = ([EConvert dst], inr df')
                                 /\ forall x, In x (fcols df') <-> In x (fcols df) \/ x = dst.
Proof.
  intros H. destruct (get_col_present df src H) as [vals Hv].
  unfold map_col. rewrite Hv, bind_ret. unfold tell, bind. simpl.
  eexists. split; [reflexivity|]. apply fcols_set_col.
Qed.

Lemma bind_inr {A B} (l : list event) (a : A) (k : A -> M B) :
  bind (l, inr a) k = ((l ++ fst (k a))%list, snd (k a)).
Proof. unfold bind. destruct (k a). reflexivity. Qed.

Lemma str_in_false (t : string) (l : list string) : str_in t l = false <-> ~ In t l.
Proof.
  rewrite <- str_in_In. destruct (str_in t l); split; congruence.
Qed.

(* ------------------------------------------------------------------ *)
(** ** Provenance of the records *)

(** C2 (the heat-vulnerability script drops the provenance tag): the
    1995 and 2015 scripts list [file_name] among their insert columns,
    the heat-vulnerability script does not; so, although it sets
    [df["file_name"]], the record it builds from the row [10001,3] is
    [[10001, 3]], which does not contain its source file name. *)
Theorem heat_records_lack_provenance_tag :
  In "file_name" Ingest1995.INSERT_COLUMNS /\
  In "file_name" Ingest2015.INSERT_COLUMNS /\
  ~ In "file_name" IngestHeat.INSERT_COLUMNS /\
  IngestHeat.prepare ["zip_code_tabulation_area"; "heat_vulerability_index"]
                     [[VStr "10001"; VStr "3"]]
  = ([], inr [[VStr "10001"; VStr "3"]]) /\
  ~ In (VStr IngestHeat.FILE_NAME_FOR_PROVENANCE) [VStr "10001"; VStr "3"].
Proof.
  split; [simpl; tauto|]. split; [simpl; tauto|].
  split; [simpl; intros [H | [H | []]]; discriminate|].
  split; [vm_compute; reflexivity|].
  simpl. intros [H | [H | []]]; discriminate.
Qed.

(* ------------------------------------------------------------------ *)
(** ** Required columns *)

(** C5 (counterexample): a 2015 extract with only the [created_at] and
    [health] columns: the run converts both columns before failing on the
    missing ones. *)
Lemma required_columns_claim_fails :
  exists missing,
    Ingest2015.prepare ["created_at"; "health"] [[VStr "08/27/2015"; VStr "Good"]]
    = ([EConvert "created_at"; EConvert "health_3cat"], inl (KeyError missing)) /\
    In "tree_id" missing.
Proof.
  eexists. split; [vm_compute; reflexivity|]. simpl. left. reflexivity.
Qed.

(* ------------------------------------------------------------------ *)
(** ** Rows kept by the transformers *)





Lemma index_of_in (c : string) (l : list string) :
  In c l -> exists i, index_of c l = Some i.
Proof.
  intros H. destruct (index_of c l) eqn:E; [eexists; reflexivity|].
  apply index_of_none in E. contradiction.
Qed.

(* ------------------------------------------------------------------ *)
(** ** Instances of the theorems *)

Lemma health_3cat_by_script_witness :
  health_to_health_3cat (Some " GOOD ") = Some "Good"
  /\ condition_to_health_3cat (Some "g") = Some "Fair".
Proof.
  destruct (health_3cat_by_script " GOOD ") as [_ [_ [H3 _]]].
  destruct (health_3cat_by_script "g") as [H1 _].
  split; [rewrite H3 | rewrite H1]; reflexivity.
Defined.

Lemma heat_records_lack_provenance_tag_witness :
  ~ In "file_name" IngestHeat.INSERT_COLUMNS.
Proof. exact (proj1 (proj2 (proj2 heat_records_lack_provenance_tag))). Defined.

Lemma load_fail_fast_witness :
  Loader.table_after
    (fst (Loader.load (fun b => Nat.eqb b 1) [[VInt 1]; [VInt 2]; [VInt 3]] 2))
  = [[VInt 1]; [VInt 2]].
Proof.
  pose proof (load_fail_fast (fun b => Nat.eqb b 1) [[VInt 1]; [VInt 2]; [VInt 3]] 2
                ltac:(lia)) as H.
  assert (E : first_fail_from (fun b => Nat.eqb b 1) 0
                (Loader.ceil_div (length [[VInt 1]; [VInt 2]; [VInt 3]]) 2) = Some 1)
    by reflexivity.
  rewrite E in H. exact (proj2 H).
Defined.

Lemma infer_borough_priority_witness :
  infer_borough (Some "Nowhere Place") = "Unknown".
Proof.
  destruct infer_borough_priority as [_ [_ [_ [H _]]]].
  apply (H "Nowhere Place"); [reflexivity|].
  assert (Hall : forallb (fun r => negb (rule_fires "nowhere place" r)) borough_rules = true)
    by (vm_compute; reflexivity).
  intros r Hr. rewrite forallb_forall in Hall. specialize (Hall r Hr).
  replace (strip (lower "Nowhere Place")) with "nowhere place" by (vm_compute; reflexivity).
  destruct (rule_fires "nowhere place" r); [discriminate | reflexivity].
Defined.

Lemma null_placeholders_convert_to_null_witness :
  to_int (Some "n/A") = None /\ to_int_bounded (Some "n/A") 0 400 = None
  /\ to_year (Some "n/A") = None /\ to_dec (Some "n/A") = None
  /\ to_bool (Some "n/A") = None /\ to_iso_date (Some "n/A") = None
  /\ condition_to_health_3cat (Some "n/A") = None
  /\ status_to_health_3cat (Some "n/A") = None
  /\ health_to_health_3cat (Some "n/A") = None.
Proof. apply null_placeholders_convert_to_null. vm_compute. reflexivity. Defined.

Lemma to_iso_date_first_pattern_witness :
  exists k fmt dt, nth_error DATE_FORMATS k = Some fmt
    /\ strptime (strip " 08/27/2015 ") fmt = Some dt
    /\ (forall j f, j < k -> nth_error DATE_FORMATS j = Some f ->
                    strptime (strip " 08/27/2015 ") f = None)
    /\ valid_date dt = true /\ "2015-08-27" = isoformat dt.
Proof.
  apply (to_iso_date_first_pattern " 08/27/2015 " "2015-08-27"). vm_compute. reflexivity.
Defined.

Lemma batches_cover_records_witness :
  Loader.executed_batches
    (fst (Loader.load (fun _ => false) [[VInt 1]; [VInt 2]; [VInt 3]; [VInt 4]; [VInt 5]] 2))
  = [[[VInt 1]; [VInt 2]]; [[VInt 3]; [VInt 4]]; [[VInt 5]]]
  /\ Loader.ceil_div 5 2 = 3.
Proof.
  destruct (batches_cover_records [[VInt 1]; [VInt 2]; [VInt 3]; [VInt 4]; [VInt 5]] 2
              ltac:(lia) ltac:(simpl; lia)) as [_ [Hlen [Hnth [Hcat _]]]].
  split; [|reflexivity].
  set (bs := Loader.executed_batches _) in *.
  assert (H3 : length bs = 3) by (rewrite Hlen; reflexivity). clear Hlen.
  destruct bs as [|b0 [|b1 [|b2 [|b3 bs]]]]; try (simpl in H3; discriminate).
  pose proof (Hnth 0 ltac:(simpl; lia)) as E0.
  pose proof (Hnth 1 ltac:(simpl; lia)) as E1.
  pose proof (Hnth 2 ltac:(simpl; lia)) as E2.
  cbn [nth] in E0, E1, E2. rewrite E0, E1, E2. vm_compute. reflexivity.
Defined.

Lemma infer_geo_level_spec_witness :
  infer_geo_level (Some "Astoria") = "Neighborhood".
Proof.
  destruct infer_geo_level_spec as [_ [_ [_ H]]].
  apply H; [reflexivity|]. vm_compute. intros [H1 | [H1 | [H1 | [H1 | [H1 | []]]]]]; discriminate.
Defined.

(* ------------------------------------------------------------------ *)
(** ** Decimal numerals *)

Lemma dig_bounds (n : Z) : (48 + Z.to_nat (n mod 10) < 58)%nat.
Proof. pose proof (Z.mod_pos_bound n 10 ltac:(lia)). lia. Qed.

Lemma is_digit_dig (n : Z) : is_digit (ascii_of_nat (48 + Z.to_nat (n mod 10))) = true.
Proof.
  unfold is_digit. rewrite nat_ascii_embedding by (pose proof (dig_bounds n); lia).
  pose proof (dig_bounds n). apply andb_true_intro; split; apply Nat.leb_le; lia.
Qed.

Lemma digit_val_dig (n : Z) : digit_val (ascii_of_nat (48 + Z.to_nat (n mod 10))) = (n mod 10)%Z.
Proof.
  unfold digit_val. rewrite nat_ascii_embedding by (pose proof (dig_bounds n); lia).
  pose proof (Z.mod_pos_bound n 10 ltac:(lia)).
  replace (48 + Z.to_nat (n mod 10) - 48)%nat with (Z.to_nat (n mod 10)) by lia.
  apply Z2Nat.id. lia.
Qed.

Lemma digit_not_special (c : ascii) :
  is_digit c = true -> is_py_space c = false /\ Ascii.eqb c "," = false.
Proof.
  intros H. destruct c as [[] [] [] [] [] [] [] []]; try discriminate H; split; reflexivity.
Qed.

Lemma digits_value_app (acc : Z) (s1 s2 : string) :
  digits_value_acc acc (s1 ++ s2) = digits_value_acc (digits_value_acc acc s1) s2.
Proof. revert acc. induction s1 as [|c s1 IH]; intros acc; simpl; [reflexivity | apply IH]. Qed.

Lemma pad_dec_value (w : nat) (n : Z) : (0 <= n)%Z ->
  digits_value_acc 0 (pad_dec w n) = (n mod 10 ^ Z.of_nat w)%Z.
Proof.
  revert n. induction w as [|w IH]; intros n Hn.
  - simpl. rewrite Z.mod_1_r. reflexivity.
  - cbn [pad_dec]. rewrite digits_value_app, IH by (apply Z.div_pos; lia).
    cbn [digits_value_acc]. rewrite digit_val_dig.
    rewrite Nat2Z.inj_succ, Z.pow_succ_r by lia.
    rewrite Z.rem_mul_r by (try lia; apply Z.pow_pos_nonneg; lia). lia.
Qed.

Lemma string_length_app (s1 s2 : string) :
  String.length (s1 ++ s2) = (String.length s1 + String.length s2)%nat.
Proof. induction s1 as [|c s1 IH]; simpl; [reflexivity | rewrite IH; reflexivity]. Qed.

Lemma pad_dec_length (w : nat) (n : Z) : String.length (pad_dec w n) = w.
Proof.
  revert n. induction w as [|w IH]; intros n; simpl; [reflexivity|].
  rewrite string_length_app, IH. simpl. lia.
Qed.

(** Every character of [s] satisfies [p]. *)
Lemma forall_chars_app (p : ascii -> bool) (s1 s2 : string) :
  forallb p (list_ascii_of_string (s1 ++ s2))
  = forallb p (list_ascii_of_string s1) && forallb p (list_ascii_of_string s2).
Proof.
  induction s1 as [|c s1 IH]; simpl; [reflexivity|]. rewrite IH. apply andb_assoc.
Qed.

Lemma pad_dec_digits (w : nat) (n : Z) : all_digits (pad_dec w n) = true.
Proof.
  unfold all_digits. revert n. induction w as [|w IH]; intros n; [reflexivity|].
  cbn [pad_dec]. rewrite forall_chars_app, IH.
  cbn [list_ascii_of_string forallb]. rewrite is_digit_dig. reflexivity.
Qed.

Lemma remove_commas_spaces_app (s1 s2 : string) :
  remove_commas_spaces (s1 ++ s2) = (remove_commas_spaces s1 ++ remove_commas_spaces s2)%string.
Proof.
  induction s1 as [|c s1 IH]; simpl; [reflexivity|].
  destruct (Ascii.eqb c "," || is_py_space c); rewrite IH; reflexivity.
Qed.

Lemma remove_commas_spaces_digits (s : string) :
  all_digits s = true -> remove_commas_spaces s = s.
Proof.
  unfold all_digits. induction s as [|c s IH]; simpl; [reflexivity|].
  intros H. apply andb_prop in H as [Hc Hs].
  destruct (digit_not_special c Hc) as [H1 H2]. rewrite H1, H2. simpl. rewrite IH by exact Hs.
  reflexivity.
Qed.

Lemma pad_dec_cons (w : nat) (n : Z) :
  (1 <= w)%nat -> exists c s, pad_dec w n = String c s /\ is_digit c = true.
Proof.
  intros Hw. pose proof (pad_dec_digits w n) as Hd. pose proof (pad_dec_length w n) as Hl.
  destruct (pad_dec w n) as [|c s]; [simpl in Hl; lia|].
  exists c, s. split; [reflexivity|]. unfold all_digits in Hd. simpl in Hd.
  apply andb_prop in Hd. tauto.
Qed.


Lemma int_literal_digit_head (c : ascii) (s : string) :
  is_digit c = true ->
  int_literal (String c s)
  = if all_digits (String c s) then Some (digits_value_acc 0 (String c s)) else None.
Proof.
  intros H. destruct c as [[] [] [] [] [] [] [] []]; try discriminate H; reflexivity.
Qed.

Lemma remove_commas_spaces_minus (t : string) :
  remove_commas_spaces ("-" ++ t) = String "-" (remove_commas_spaces t).
Proof. reflexivity. Qed.

Lemma int_literal_minus (ds : string) :
  int_literal (String "-" ds)
  = if negb (String.eqb ds EmptyString) && all_digits ds
    then Some (- digits_value_acc 0 ds)%Z else None.
Proof. reflexivity. Qed.

(** [to_int] reads back a decimal numeral: the digits of [n], padded with
    zeros to any width [w] up to 4300 (beyond it [int] of a string
    raises, CPython's default limit), give [n], and with a leading ["-"]
    give [-n];
    the same holds for [to_year], and [to_int_bounded] keeps [n] exactly
    when it lies in the bounds. *)
Theorem to_int_reads_decimal (w : nat) (n : Z)
  (Hw : (1 <= w)%nat) (Hw' : (w <= 4300)%nat) (Hn : (0 <= n < 10 ^ Z.of_nat w)%Z) :
  to_int (Some (pad_dec w n)) = Some n
  /\ to_int (Some ("-" ++ pad_dec w n)) = Some (- n)%Z
  /\ to_year (Some (pad_dec w n)) = Some n
  /\ (forall low high, to_int_bounded (Some (pad_dec w n)) low high
                       = if (low <=? n)%Z && (n <=? high)%Z then Some n else None).
Proof.
  pose proof (pad_dec_digits w n) as Hd.
  pose proof (pad_dec_value w n (proj1 Hn)) as Hv. rewrite Z.mod_small in Hv by exact Hn.
  destruct (pad_dec_cons w n Hw) as [c [s [Hp Hc]]].
  assert (E : to_int (Some (pad_dec w n)) = Some n).
  { unfold to_int. rewrite remove_commas_spaces_digits by exact Hd. rewrite Hp.
    cbn [String.eqb]. rewrite int_literal_digit_head by exact Hc.
    rewrite <- Hp, Hd, Hv. reflexivity. }
  split; [exact E|]. split.
  - unfold to_int. rewrite remove_commas_spaces_minus, remove_commas_spaces_digits by exact Hd.
    rewrite int_literal_minus, Hp. cbn [String.eqb negb andb]. rewrite <- Hp, Hd, Hv. reflexivity.
  - split.
    + unfold to_year. rewrite E. reflexivity.
    + intros low high. unfold to_int_bounded. rewrite E. reflexivity.
Qed.

(** [to_int] and [to_dec] drop every comma and whitespace character
    wherever it stands ([re.sub(r"[,\s]", "", ...)]): inserting one
    changes neither result. *)
Theorem converters_ignore_separators (s1 s2 : string) (c : ascii)
  (Hc : (Ascii.eqb c "," || is_py_space c)%bool = true) :
  to_int (Some (s1 ++ String c s2)) = to_int (Some (s1 ++ s2))
  /\ to_dec (Some (s1 ++ String c s2)) = to_dec (Some (s1 ++ s2)).
Proof.
  assert (E : remove_commas_spaces (s1 ++ String c s2) = remove_commas_spaces (s1 ++ s2)).
  { rewrite !remove_commas_spaces_app. simpl. rewrite Hc. reflexivity. }
  unfold to_int, to_dec. rewrite E. split; reflexivity.
Qed.


(* ------------------------------------------------------------------ *)
(** ** Header normalization *)

Lemma lower_smap (s : string) : lower s = smap lower_char s.
Proof. induction s as [|c s IH]; simpl; [reflexivity|]. rewrite IH. reflexivity. Qed.

Lemma spaces_to_underscores_smap (s : string) :
  spaces_to_underscores s = smap underscore_char s.
Proof. induction s as [|c s IH]; simpl; [reflexivity|]. rewrite IH. reflexivity. Qed.

Lemma smap_smap (f g : ascii -> ascii) (s : string) :
  smap f (smap g s) = smap (fun c => f (g c)) s.
Proof. induction s as [|c s IH]; simpl; [reflexivity|]. rewrite IH. reflexivity. Qed.

Lemma smap_ext (f g : ascii -> ascii) (s : string) :
  (forall c, f c = g c) -> smap f s = smap g s.
Proof. intros H. induction s as [|c s IH]; simpl; [reflexivity|]. rewrite IH, H. reflexivity. Qed.

Lemma lower_char_idem (c : ascii) : lower_char (lower_char c) = lower_char c.
Proof. destruct c as [[] [] [] [] [] [] [] []]; reflexivity. Qed.

Lemma lower_underscore_char (c : ascii) :
  lower_char (underscore_char (lower_char c)) = underscore_char (lower_char c).
Proof. destruct c as [[] [] [] [] [] [] [] []]; reflexivity. Qed.

Lemma underscore_char_idem (c : ascii) : underscore_char (underscore_char c) = underscore_char c.
Proof. destruct c as [[] [] [] [] [] [] [] []]; reflexivity. Qed.

Lemma underscore_char_space (c : ascii) :
  is_py_space (underscore_char c) = true -> is_py_space c = true.
Proof. intros H. destruct c as [[] [] [] [] [] [] [] []]; vm_compute in H |- *; congruence. Qed.

Lemma underscore_char_not_blank (c : ascii) : Ascii.eqb (underscore_char c) " " = false.
Proof. destruct c as [[] [] [] [] [] [] [] []]; reflexivity. Qed.

Lemma smap_no_leading (f : ascii -> ascii) (s : string) :
  (forall c, is_py_space (f c) = true -> is_py_space c = true) ->
  no_leading_space s = true -> no_leading_space (smap f s) = true.
Proof.
  intros Hf. destruct s as [|c s]; simpl; [reflexivity|].
  intros H. destruct (is_py_space (f c)) eqn:E; [|reflexivity].
  rewrite (Hf c E) in H. discriminate H.
Qed.

Lemma smap_no_trailing (f : ascii -> ascii) (s : string) :
  (forall c, is_py_space (f c) = true -> is_py_space c = true) ->
  no_trailing_space s = true -> no_trailing_space (smap f s) = true.
Proof.
  intros Hf. induction s as [|c s IH]; [reflexivity|].
  destruct s as [|c' s'].
  - simpl. intros H. destruct (is_py_space (f c)) eqn:E; [|reflexivity].
    rewrite (Hf c E) in H. discriminate H.
  - intros H. exact (IH H).
Qed.

Lemma no_leading_lstrip (s : string) : no_leading_space (lstrip s) = true.
Proof.
  induction s as [|c s IH]; [reflexivity|]. simpl.
  destruct (is_py_space c) eqn:E; [exact IH|]. simpl. rewrite E. reflexivity.
Qed.

Lemma no_leading_rstrip (s : string) :
  no_leading_space s = true -> no_leading_space (rstrip s) = true.
Proof.
  destruct s as [|c s]; [reflexivity|]. simpl. intros H.
  destruct (is_py_space c && String.eqb (rstrip s) EmptyString); [reflexivity|exact H].
Qed.

Lemma no_trailing_rstrip (s : string) : no_trailing_space (rstrip s) = true.
Proof.
  induction s as [|c s IH]; [reflexivity|]. simpl.
  destruct (rstrip s) as [|c' s'] eqn:E.
  - destruct (is_py_space c) eqn:Ec; [reflexivity|]. simpl. rewrite Ec. reflexivity.
  - rewrite andb_false_r. exact IH.
Qed.

Lemma lstrip_no_leading (s : string) : no_leading_space s = true -> lstrip s = s.
Proof.
  destruct s as [|c s]; [reflexivity|]. simpl. intros H.
  destruct (is_py_space c); [discriminate H|reflexivity].
Qed.

Lemma rstrip_no_trailing (s : string) : no_trailing_space s = true -> rstrip s = s.
Proof.
  induction s as [|c s IH]; [reflexivity|]. intros H.
  destruct s as [|c' s'].
  - simpl in *. destruct (is_py_space c); [discriminate H|reflexivity].
  - change (rstrip (String c (String c' s')))
      with (if is_py_space c && String.eqb (rstrip (String c' s')) EmptyString
            then EmptyString else String c (rstrip (String c' s'))).
    rewrite (IH H), andb_false_r. reflexivity.
Qed.

Lemma strip_fixed (s : string) :
  no_leading_space s = true -> no_trailing_space s = true -> strip s = s.
Proof.
  intros H1 H2. unfold strip. rewrite (lstrip_no_leading s H1). exact (rstrip_no_trailing s H2).
Qed.

Lemma normalize_header_smap (c : string) :
  spaces_to_underscores (lower (strip c))
  = smap (fun x => underscore_char (lower_char x)) (strip c).
Proof. rewrite spaces_to_underscores_smap, lower_smap, smap_smap. reflexivity. Qed.

Lemma smap_lower_space (c : ascii) :
  is_py_space (underscore_char (lower_char c)) = true -> is_py_space c = true.
Proof. intros H. rewrite <- lower_char_space. exact (underscore_char_space _ H). Qed.

(** Every header [normalize_headers] produces is already trimmed
    ([h.strip() == h]), already lowercase ([h.lower() == h]) and has no
    space character left in it. *)
Theorem normalized_header_shape (cols : list string) (h : string) :
  In h (normalize_headers cols) ->
  strip h = h /\ lower h = h
  /\ forallb (fun x => negb (Ascii.eqb x " ")) (list_ascii_of_string h) = true.
Proof.
  unfold normalize_headers. rewrite in_map_iff. intros [c [<- _]].
  rewrite normalize_header_smap. repeat split.
  - apply strip_fixed.
    + apply smap_no_leading; [exact smap_lower_space|].
      unfold strip. apply no_leading_rstrip, no_leading_lstrip.
    + apply smap_no_trailing; [exact smap_lower_space|]. apply no_trailing_rstrip.
  - rewrite lower_smap, smap_smap. apply smap_ext. apply lower_underscore_char.
  - induction (strip c) as [|x s IH]; [reflexivity|].
    cbn [smap list_ascii_of_string forallb]. rewrite underscore_char_not_blank, IH. reflexivity.
Qed.

Lemma spaces_to_underscores_none (s : string) :
  forallb (fun x => negb (Ascii.eqb x " ")) (list_ascii_of_string s) = true ->
  spaces_to_underscores s = s.
Proof.
  induction s as [|x s IH]; [reflexivity|]. cbn [list_ascii_of_string forallb].
  intros H. apply andb_prop in H as [Hx Hs]. cbn [spaces_to_underscores].
  destruct (Ascii.eqb x " "); [discriminate Hx|]. rewrite (IH Hs). reflexivity.
Qed.

(** Normalizing headers twice gives the same header list as normalizing
    them once. *)
Theorem normalize_headers_idempotent (cols : list string) :
  normalize_headers (normalize_headers cols) = normalize_headers cols.
Proof.
  rewrite <- (map_id (normalize_headers cols)) at 2. unfold normalize_headers at 1.
  apply map_ext_in. intros h Hin.
  destruct (normalized_header_shape cols h Hin) as [H1 [H2 H3]].
  rewrite H1, H2. exact (spaces_to_underscores_none h H3).
Qed.

(* ------------------------------------------------------------------ *)
(** ** ISO dates read back *)

Lemma lstrip_nonspace (s : string) :
  forallb (fun c => negb (is_py_space c)) (list_ascii_of_string s) = true -> lstrip s = s.
Proof.
  destruct s as [|c s]; [reflexivity|]. cbn [list_ascii_of_string forallb lstrip].
  intros H. apply andb_prop in H as [Hc _]. destruct (is_py_space c); [discriminate Hc|reflexivity].
Qed.

Lemma rstrip_nonspace (s : string) :
  forallb (fun c => negb (is_py_space c)) (list_ascii_of_string s) = true -> rstrip s = s.
Proof.
  induction s as [|c s IH]; [reflexivity|]. cbn [list_ascii_of_string forallb rstrip].
  intros H. apply andb_prop in H as [Hc Hs]. rewrite (IH Hs).
  destruct (is_py_space c); [discriminate Hc|reflexivity].
Qed.

Lemma strip_nonspace (s : string) :
  forallb (fun c => negb (is_py_space c)) (list_ascii_of_string s) = true -> strip s = s.
Proof. intros H. unfold strip. rewrite (lstrip_nonspace s H). exact (rstrip_nonspace s H). Qed.

Lemma all_digits_nonspace (s : string) :
  all_digits s = true -> forallb (fun c => negb (is_py_space c)) (list_ascii_of_string s) = true.
Proof.
  unfold all_digits. induction s as [|c s IH]; [reflexivity|]. cbn [list_ascii_of_string forallb].
  intros H. apply andb_prop in H as [Hc Hs]. rewrite (proj1 (digit_not_special c Hc)), (IH Hs). reflexivity.
Qed.

Lemma group_int_pad_dec (w : nat) (n : Z) :
  (0 <= n < 10 ^ Z.of_nat w)%Z -> group_int (pad_dec w n) = n.
Proof.
  intros Hn. unfold group_int.
  rewrite (strip_nonspace _ (all_digits_nonspace _ (pad_dec_digits w n))).
  rewrite (pad_dec_value w n (proj1 Hn)). apply Z.mod_small. exact Hn.
Qed.

Lemma directive_matches_year (s rest : string) :
  String.length s = 4%nat -> all_digits s = true -> directive_matches DirY (s ++ rest) = [(s, rest)].
Proof.
  intros Hl Hd. destruct s as [|a [|b [|c [|d [|e s]]]]]; try discriminate Hl.
  unfold all_digits in Hd. cbn [list_ascii_of_string forallb] in Hd.
  rewrite !andb_true_iff in Hd. destruct Hd as [Ha [Hb [Hc [Hd _]]]].
  unfold directive_matches, alternatives. cbn [flat_map match_classes append].
  rewrite Ha, Hb, Hc, Hd. reflexivity.
Qed.

Lemma regex_matches_year (s rest : string) (ds : list directive) :
  String.length s = 4%nat -> all_digits s = true ->
  regex_matches (DirY :: ds) (s ++ rest)
  = map (fun '(caps, r') => ((DirY, s) :: caps, r')) (regex_matches ds rest).
Proof.
  intros Hl Hd. cbn [regex_matches]. rewrite (directive_matches_year s rest Hl Hd).
  cbn [flat_map]. rewrite app_nil_r. reflexivity.
Qed.

(** The month and day part of an ISO date, checked for every month and
    every day number. *)
Lemma iso_tail_table :
  forallb (fun m => forallb (fun dd =>
    match regex_matches [DirLit "-"; Dirm; DirLit "-"; Dird]
                        ("-" ++ pad_dec 2 m ++ "-" ++ pad_dec 2 dd) with
    | (caps, rest) :: _ =>
        String.eqb rest EmptyString &&
        match capture caps Dirm, capture caps Dird with
        | Some xm, Some xd => Z.eqb (group_int xm) m && Z.eqb (group_int xd) dd
        | _, _ => false
        end
    | [] => false
    end) (map Z.of_nat (seq 1 31))) (map Z.of_nat (seq 1 12)) = true.
Proof. vm_compute. reflexivity. Qed.

Lemma in_range_map (z : Z) (a n : nat) :
  (Z.of_nat a <= z < Z.of_nat (a + n))%Z -> In z (map Z.of_nat (seq a n)).
Proof.
  intros H. apply in_map_iff. exists (Z.to_nat z). split; [lia|]. apply in_seq. lia.
Qed.

Lemma iso_tail (m dd : Z) :
  (1 <= m <= 12)%Z -> (1 <= dd <= 31)%Z ->
  exists caps tl xm xd,
    regex_matches [DirLit "-"; Dirm; DirLit "-"; Dird] ("-" ++ pad_dec 2 m ++ "-" ++ pad_dec 2 dd)
    = (caps, EmptyString) :: tl
    /\ capture caps Dirm = Some xm /\ group_int xm = m
    /\ capture caps Dird = Some xd /\ group_int xd = dd.
Proof.
  intros Hm Hd. pose proof iso_tail_table as T.
  rewrite forallb_forall in T. specialize (T m (in_range_map m 1 12 ltac:(lia))). cbv beta in T.
  rewrite forallb_forall in T. specialize (T dd (in_range_map dd 1 31 ltac:(lia))). cbv beta in T.
  destruct (regex_matches _ _) as [|[caps rest] tl]; [discriminate T|].
  apply andb_prop in T as [Hr T]. apply String.eqb_eq in Hr. subst rest.
  destruct (capture caps Dirm) as [xm|] eqn:Hxm; [|discriminate T].
  destruct (capture caps Dird) as [xd|] eqn:Hxd; [|discriminate T].
  apply andb_prop in T as [T1 T2]. apply Z.eqb_eq in T1, T2.
  exists caps, tl, xm, xd. split; [reflexivity|]. repeat split; assumption.
Qed.

Lemma days_in_month_le (y m : Z) : (days_in_month y m <= 31)%Z.
Proof.
  unfold days_in_month. destruct (Z.eqb m 2); [destruct (is_leap y)|destruct (existsb _ _)]; lia.
Qed.

Lemma strptime_isoformat (dt : date) :
  valid_date dt = true -> strptime (isoformat dt) "%Y-%m-%d" = Some dt.
Proof.
  destruct dt as [y m dd]. intros H.
  assert (Hb : (1 <= y <= 9999 /\ 1 <= m <= 12 /\ 1 <= dd <= days_in_month y m)%Z).
  { unfold valid_date in H. cbn [year month day] in H.
    rewrite !andb_true_iff, !Z.leb_le in H. lia. }
  pose proof (days_in_month_le y m).
  destruct (iso_tail m dd) as [caps [tl [xm [xd [Hre [Hxm [Hgm [Hxd Hgd]]]]]]]]; [lia|lia|].
  unfold strptime, isoformat. cbn [year month day].
  change (compile_fmt "%Y-%m-%d") with (DirY :: [DirLit "-"; Dirm; DirLit "-"; Dird]).
  rewrite regex_matches_year by (apply pad_dec_length || apply pad_dec_digits).
  rewrite Hre. cbn [map negb String.eqb capture].
  rewrite Hxm, Hxd, Hgm, Hgd, group_int_pad_dec by (cbn; lia).
  rewrite H. reflexivity.
Qed.

Lemma isoformat_nonspace (dt : date) :
  forallb (fun c => negb (is_py_space c)) (list_ascii_of_string (isoformat dt)) = true.
Proof.
  unfold isoformat. rewrite !forall_chars_app.
  rewrite (all_digits_nonspace _ (pad_dec_digits 4 (year dt))),
    (all_digits_nonspace _ (pad_dec_digits 2 (month dt))),
    (all_digits_nonspace _ (pad_dec_digits 2 (day dt))).
  reflexivity.
Qed.

(** [to_iso_date] reads back its own output format: the ISO text
    ["YYYY-MM-DD"] of any calendar date [datetime.date] accepts is
    converted to itself. *)
Theorem to_iso_date_isoformat (dt : date) (H : valid_date dt = true) :
  to_iso_date (Some (isoformat dt)) = Some (isoformat dt).
Proof.
  rewrite to_iso_date_try_formats, (strip_nonspace _ (isoformat_nonspace dt)).
  unfold DATE_FORMATS. cbn [try_formats]. rewrite (strptime_isoformat dt H). reflexivity.
Qed.

(** Converting a date a second time changes nothing: whatever
    [to_iso_date] returns, it converts to itself. *)
Theorem to_iso_date_idempotent (s d : string) (H : to_iso_date (Some s) = Some d) :
  to_iso_date (Some d) = Some d.
Proof.
  rewrite to_iso_date_try_formats, try_formats_some_iff in H.
  destruct H as [k [fmt [dt [_ [Hp [_ ->]]]]]].
  pose proof (strptime_valid _ _ _ Hp) as Hv.
  rewrite to_iso_date_try_formats, (strip_nonspace _ (isoformat_nonspace dt)).
  unfold DATE_FORMATS. cbn [try_formats]. rewrite (strptime_isoformat dt Hv). reflexivity.
Qed.

(* ------------------------------------------------------------------ *)
(** ** Row views through the frame operations *)

Lemma nth_replace_nth_same {A} (i : nat) (v d : A) (l : list A) :
  i < length l -> nth i (replace_nth i v l) d = v.
Proof.
  revert i. induction l as [|x l IH]; intros i Hi; [simpl in Hi; lia|].
  destruct i as [|i]; [reflexivity|]. simpl. apply IH. simpl in Hi. lia.
Qed.

Lemma nth_replace_nth_other {A} (i j : nat) (v d : A) (l : list A) :
  i <> j -> nth j (replace_nth i v l) d = nth j l d.
Proof.
  revert i j. induction l as [|x l IH]; intros i j Hij; [destruct i; reflexivity|].
  destruct i as [|i], j as [|j]; simpl; try reflexivity; [lia|]. apply IH. lia.
Qed.

Lemma length_replace_nth {A} (i : nat) (v : A) (l : list A) :
  length (replace_nth i v l) = length l.
Proof.
  revert i. induction l as [|x l IH]; intros i; [destruct i; reflexivity|].
  destruct i as [|i]; simpl; [reflexivity|]. rewrite IH. reflexivity.
Qed.

Lemma index_of_nth (x : string) (l : list string) (j : nat) :
  index_of x l = Some j -> nth j l EmptyString = x.
Proof.
  revert j. induction l as [|y l IH]; intros j H; simpl in H; [discriminate|].
  destruct (String.eqb x y) eqn:E.
  - injection H as <-. apply String.eqb_eq in E. symmetry. exact E.
  - destruct (index_of x l) as [j'|] eqn:E'; [|discriminate].
    injection H as <-. apply IH. reflexivity.
Qed.

Lemma nth_map_row (h : list pyval -> pyval) (rows : list (list pyval)) (k : nat) :
  k < length rows -> nth k (map h rows) VNaN = h (nth k rows []).
Proof.
  intros Hk. rewrite (nth_indep _ VNaN (h [])) by (rewrite length_map; exact Hk).
  apply map_nth.
Qed.

Lemma nth_map_combine {B} (f : list pyval * B -> list pyval) (l1 : list (list pyval))
  (l2 : list B) (k : nat) (d2 : B) :
  length l2 = length l1 -> k < length l1 ->
  nth k (map f (combine l1 l2)) [] = f (nth k l1 [], nth k l2 d2).
Proof.
  intros Hl Hk. rewrite (nth_indep _ [] (f ([], d2)))
    by (rewrite length_map, length_combine; lia).
  rewrite map_nth, combine_nth by lia. reflexivity.
Qed.

Lemma length_set_col (df : frame) (c : string) (vals : list pyval) :
  length vals = length (frows df) -> length (frows (set_col df c vals)) = length (frows df).
Proof.
  intros Hl. unfold set_col. destruct (index_of c (fcols df)); simpl;
    rewrite length_map, length_combine; lia.
Qed.

Lemma aligned_set_col (df : frame) (c : string) (vals : list pyval) :
  aligned df -> aligned (set_col df c vals).
Proof.
  unfold aligned, set_col. rewrite Forall_forall. intros Ha.
  destruct (index_of c (fcols df)) eqn:E; simpl; apply Forall_forall;
    intros r' Hr'; apply in_map_iff in Hr' as [[r v] [<- Hin]];
    apply in_combine_l in Hin.
  - rewrite length_replace_nth. apply Ha, Hin.
  - rewrite !length_app, (Ha r Hin). reflexivity.
Qed.

(** The cell of column [x] in row [k] after [df[c] = vals]. *)
Lemma view_set_col (df : frame) (c : string) (vals : list pyval) (k : nat) (x : string) :
  aligned df -> length vals = length (frows df) -> k < length (frows df) ->
  view (set_col df c vals) k x
  = if String.eqb x c then nth k vals VNaN else view df k x.
Proof.
  intros Ha Hl Hk. unfold aligned in Ha. rewrite Forall_forall in Ha.
  pose proof (Ha (nth k (frows df) []) (nth_In _ _ Hk)) as Hr.
  unfold view, set_col. destruct (index_of c (fcols df)) as [i|] eqn:E; simpl frows; simpl fcols.
  - rewrite (nth_map_combine (fun '(r, v) => replace_nth i v r) _ _ k VNaN Hl Hk).
    unfold cell. simpl fcols. pose proof (index_of_some _ _ _ E) as Hi.
    destruct (String.eqb x c) eqn:Exc.
    + apply String.eqb_eq in Exc. subst x. rewrite E.
      apply nth_replace_nth_same. lia.
    + destruct (index_of x (fcols df)) as [j|] eqn:Ex; [|reflexivity].
      apply nth_replace_nth_other. intros <-.
      apply index_of_nth in E, Ex. apply String.eqb_neq in Exc. congruence.
  - rewrite (nth_map_combine (fun '(r, v) => (r ++ [v])%list) _ _ k VNaN Hl Hk).
    unfold cell. simpl fcols. assert (Hc : ~ In c (fcols df)) by (apply index_of_none; exact E).
    destruct (String.eqb x c) eqn:Exc.
    + apply String.eqb_eq in Exc. subst x.
      rewrite (index_of_app_out c _ _ Hc). simpl. rewrite String.eqb_refl.
      rewrite app_nth2 by lia. rewrite Hr, Nat.add_0_r, Nat.sub_diag. reflexivity.
    + destruct (in_dec string_dec x (fcols df)) as [Hin|Hout].
      * rewrite (index_of_app_in x _ _ Hin).
        destruct (index_of x (fcols df)) as [j|] eqn:Ej; [|reflexivity].
        apply app_nth1. rewrite Hr. exact (index_of_some _ _ _ Ej).
      * rewrite (index_of_app_out x _ _ Hout). simpl. rewrite Exc.
        apply index_of_none in Hout. rewrite Hout. reflexivity.
Qed.

Lemma fcols_set_col_mono (df : frame) (c : string) (vals : list pyval) (x : string) :
  In x (fcols df) -> In x (fcols (set_col df c vals)).
Proof. intros H. apply fcols_set_col. left. exact H. Qed.

Lemma fcols_set_col_new (df : frame) (c : string) (vals : list pyval) :
  In c (fcols (set_col df c vals)).
Proof. apply fcols_set_col. right. reflexivity. Qed.

Lemma view_strip_all (df : frame) (k : nat) (x : string) :
  view (strip_all df) k x = strip_cell (view df k x).
Proof.
  unfold view, strip_all, cell. simpl.
  change [] with (map strip_cell []). rewrite map_nth.
  destruct (index_of x (fcols df)) as [i|]; [|reflexivity].
  change VNaN with (strip_cell VNaN) at 1. apply map_nth.
Qed.

Lemma aligned_strip_all (df : frame) : aligned df -> aligned (strip_all df).
Proof.
  unfold aligned, strip_all. simpl. rewrite !Forall_forall. intros H r Hr.
  apply in_map_iff in Hr as [r0 [<- Hr0]]. rewrite length_map. apply H, Hr0.
Qed.

Lemma map_col_eq (df : frame) (src dst : string) (g : pyval -> pyval) :
  In src (fcols df) ->
  map_col df src dst g
  = ([EConvert dst], inr (set_col df dst (map (fun r => g (cell df r src)) (frows df)))).
Proof.
  intros H. destruct (index_of_in _ _ H) as [i E].
  unfold map_col. rewrite (get_col_at df src i E), bind_ret. unfold tell, bind. simpl.
  rewrite map_map. unfold cell. rewrite E. reflexivity.
Qed.

(** One [df[dst] = df[src].map(g)] step: what it logs, and the cells of
    every row afterwards. *)
Lemma map_col_step (df : frame) (src dst : string) (g : pyval -> pyval) :
  aligned df -> In src (fcols df) ->
  exists df', map_col df src dst g = ([EConvert dst], inr df')
    /\ aligned df' /\ length (frows df') = length (frows df)
    /\ (forall x, In x (fcols df) -> In x (fcols df')) /\ In dst (fcols df')
    /\ (forall k x, k < length (frows df) ->
          view df' k x = if String.eqb x dst then g (view df k src) else view df k x).
Proof.
  intros Ha Hs. rewrite (map_col_eq df src dst g Hs). eexists. split; [reflexivity|].
  assert (Hl : length (map (fun r => g (cell df r src)) (frows df)) = length (frows df))
    by apply length_map.
  split; [apply aligned_set_col, Ha|]. split; [exact (length_set_col _ _ _ Hl)|].
  split; [intros x; apply fcols_set_col_mono|]. split; [apply fcols_set_col_new|].
  intros k x Hk. rewrite (view_set_col _ _ _ k x Ha Hl Hk).
  rewrite nth_map_row by exact Hk. reflexivity.
Qed.

Lemma set_const_step (df : frame) (c : string) (v : pyval) :
  aligned df ->
  aligned (set_const df c v) /\ length (frows (set_const df c v)) = length (frows df)
  /\ (forall x, In x (fcols df) -> In x (fcols (set_const df c v)))
  /\ In c (fcols (set_const df c v))
  /\ (forall k x, k < length (frows df) ->
        view (set_const df c v) k x = if String.eqb x c then v else view df k x).
Proof.
  intros Ha. unfold set_const.
  assert (Hl : length (repeat v (length (frows df))) = length (frows df)) by apply repeat_length.
  split; [apply aligned_set_col, Ha|]. split; [exact (length_set_col _ _ _ Hl)|].
  split; [intros x; apply fcols_set_col_mono|]. split; [apply fcols_set_col_new|].
  intros k x Hk. rewrite (view_set_col _ _ _ k x Ha Hl Hk).
  destruct (String.eqb x c); [|reflexivity]. apply nth_repeat_lt. exact Hk.
Qed.

Lemma filter_all_false {A} (p : A -> bool) (l : list A) :
  (forall x, In x l -> p x = false) -> filter p l = [].
Proof.
  induction l as [|x l IH]; intros H; simpl; [reflexivity|].
  rewrite (H x (or_introl eq_refl)). apply IH. intros y Hy. apply H. right. exact Hy.
Qed.

(** [df[cols].values.tolist()] when every column is there: one record
    per row, the row's cells in the order of [cols]. *)
Lemma select_ok (df : frame) (cols : list string) :
  (forall c, In c cols -> In c (fcols df)) ->
  select df cols = ret (map (fun r => map (cell df r) cols) (frows df)).
Proof.
  intros H. unfold select. rewrite filter_all_false; [reflexivity|].
  intros c Hc. apply negb_false_iff, str_in_In, H, Hc.
Qed.

Lemma cell_remove_nth (c x : string) (cols : list string) (r : list pyval) (i : nat) :
  index_of c cols = Some i -> x <> c -> length r = length cols ->
  match index_of x (remove_nth i cols) with Some j => nth j (remove_nth i r) VNaN | None => VNaN end
  = match index_of x cols with Some j => nth j r VNaN | None => VNaN end.
Proof.
  revert i r. induction cols as [|y cols IH]; intros i r Hi Hxc Hl; [discriminate Hi|].
  destruct r as [|v r]; [discriminate Hl|]. simpl in Hl. injection Hl as Hl.
  simpl in Hi. destruct (String.eqb c y) eqn:Ecy.
  - injection Hi as <-. apply String.eqb_eq in Ecy. subst y. simpl.
    apply String.eqb_neq in Hxc. rewrite Hxc.
    destruct (index_of x cols); reflexivity.
  - destruct (index_of c cols) as [i'|] eqn:Ei; [|discriminate]. injection Hi as <-.
    simpl. destruct (String.eqb x y); [reflexivity|].
    specialize (IH i' r eq_refl Hxc Hl).
    destruct (index_of x (remove_nth i' cols)), (index_of x cols); exact IH.
Qed.

Lemma length_remove_nth {A} (i : nat) (l : list A) :
  i < length l -> length (remove_nth i l) = length l - 1.
Proof.
  revert i. induction l as [|x l IH]; intros i Hi; [simpl in Hi; lia|].
  destruct i as [|i]; simpl; [lia|]. simpl in Hi. rewrite IH by lia. lia.
Qed.

Lemma in_remove_nth (i : nat) (l : list string) (x : string) :
  In x l -> index_of x l <> Some i -> In x (remove_nth i l).
Proof.
  revert i. induction l as [|y l IH]; intros i Hx Hne; [destruct Hx|].
  simpl in Hne. destruct (String.eqb x y) eqn:Exy.
  - apply String.eqb_eq in Exy. subst y. destruct i as [|i]; [congruence|]. left. reflexivity.
  - destruct Hx as [-> | Hx]; [rewrite String.eqb_refl in Exy; discriminate|].
    destruct i as [|i]; simpl; [exact Hx|]. right. apply IH; [exact Hx|].
    intros E. rewrite E in Hne. congruence.
Qed.

(** [df.drop(columns=[c])] of a column that is there: the other columns
    keep their cells. *)
Lemma drop_col_step (df : frame) (c : string) :
  aligned df -> In c (fcols df) ->
  aligned (drop_col df c) /\ length (frows (drop_col df c)) = length (frows df)
  /\ (forall x, In x (fcols df) -> x <> c -> In x (fcols (drop_col df c)))
  /\ (forall k x, k < length (frows df) -> x <> c -> view (drop_col df c) k x = view df k x).
Proof.
  intros Ha Hc. destruct (index_of_in _ _ Hc) as [i E]. pose proof (index_of_some _ _ _ E) as Hi.
  unfold aligned in Ha. rewrite Forall_forall in Ha.
  unfold drop_col. rewrite E. simpl. split; [|split; [|split]].
  - apply Forall_forall. intros r' Hr'. apply in_map_iff in Hr' as [r [<- Hr]]. simpl fcols.
    rewrite (length_remove_nth i r) by (rewrite (Ha r Hr); lia).
    rewrite (length_remove_nth i (fcols df)) by lia. rewrite (Ha r Hr). reflexivity.
  - apply length_map.
  - intros x Hx Hxc. apply in_remove_nth; [exact Hx|].
    intros Ex. apply index_of_nth in Ex, E. congruence.
  - intros k x Hk Hxc. unfold view, cell. simpl.
    rewrite (nth_indep _ [] (remove_nth i [])) by (rewrite length_map; exact Hk).
    rewrite (map_nth (remove_nth i)).
    exact (cell_remove_nth c x (fcols df) _ i E Hxc (Ha _ (nth_In _ _ Hk))).
Qed.

(* ------------------------------------------------------------------ *)
(** ** The records of the scripts *)

Lemma drop_if_step (df : frame) (c : string) :
  aligned df ->
  aligned (if str_in c (fcols df) then drop_col df c else df)
  /\ length (frows (if str_in c (fcols df) then drop_col df c else df)) = length (frows df)
  /\ (forall x, In x (fcols df) -> x <> c ->
        In x (fcols (if str_in c (fcols df) then drop_col df c else df)))
  /\ (forall k x, k < length (frows df) -> x <> c ->
        view (if str_in c (fcols df) then drop_col df c else df) k x = view df k x).
Proof.
  intros Ha. destruct (str_in c (fcols df)) eqn:E.
  - apply str_in_In in E. exact (drop_col_step df c Ha E).
  - split; [exact Ha|]. split; [reflexivity|]. split; [auto|]. reflexivity.
Qed.

Lemma nth_map_lt {A B} (f : A -> B) (l : list A) (k : nat) (da : A) (db : B) :
  k < length l -> nth k (map f l) db = f (nth k l da).
Proof.
  intros Hk. rewrite (nth_indep _ db (f da)) by (rewrite length_map; exact Hk). apply map_nth.
Qed.

Lemma rows_ext (recs rows : list (list pyval)) (G : list pyval -> list pyval) :
  length recs = length rows ->
  (forall k, k < length rows -> nth k recs [] = G (nth k rows [])) ->
  recs = map G rows.
Proof.
  intros Hl H. apply (nth_ext _ _ [] []); [rewrite length_map; exact Hl|].
  intros k Hk. rewrite H by lia.
  rewrite (nth_indep (map G rows) [] (G [])) by (rewrite length_map; lia).
  symmetry. apply map_nth.
Qed.

Lemma to_iso_date_shape (o : option string) (d : string) :
  to_iso_date o = Some d -> exists dt, d = isoformat dt.
Proof.
  destruct o as [s|]; [|discriminate]. rewrite to_iso_date_try_formats, try_formats_some_iff.
  intros [_ [_ [dt [_ [_ [_ ->]]]]]]. exists dt. reflexivity.
Qed.

Lemma strip_cell_iso (o : option string) : strip_cell (of_S (to_iso_date o)) = of_S (to_iso_date o).
Proof.
  destruct (to_iso_date o) as [d|] eqn:E; [|reflexivity].
  destruct (to_iso_date_shape o d E) as [dt ->]. simpl.
  rewrite (strip_nonspace _ (isoformat_nonspace dt)). reflexivity.
Qed.

Lemma strip_cell_health (o : option string) :
  strip_cell (of_S (health_to_health_3cat o)) = of_S (health_to_health_3cat o).
Proof.
  destruct o as [s|]; [|reflexivity]. unfold health_to_health_3cat.
  destruct (String.eqb (lower (strip s)) "good"); [reflexivity|].
  destruct (String.eqb (lower (strip s)) "fair"); [reflexivity|].
  destruct (String.eqb (lower (strip s)) "poor"); reflexivity.
Qed.

Lemma nan_to_none_of_S (o : option string) : nan_to_none (of_S o) = of_S o.
Proof. destruct o; reflexivity. Qed.

(** The heat-vulnerability records: for a file whose normalized header
    has no repeated name and has both data columns (and every row as wide
    as the header), one record per row, in order,
    made of the row's ZIP and index cells, trimmed, a missing value
    becoming [None]. *)
Theorem heat_records_are_trimmed_rows (hdr : list string) (rows : list (list pyval))
  (Hnd : NoDup (normalize_headers hdr))
  (Hz : In "zip_code_tabulation_area" (normalize_headers hdr))
  (Hi : In "heat_vulerability_index" (normalize_headers hdr))
  (Hwf : Forall (fun r => length r = length (normalize_headers hdr)) rows) :
  IngestHeat.prepare hdr rows
  = ([], inr (map (fun r =>
                     map (fun c => nan_to_none (strip_cell (cell (mkframe (normalize_headers hdr) rows) r c)))
                         IngestHeat.INSERT_COLUMNS) rows)).
Proof.
  set (df0 := mkframe (normalize_headers hdr) rows).
  assert (Ha0 : aligned df0) by exact Hwf.
  unfold IngestHeat.prepare. fold df0.
  destruct (drop_if_step df0 "id" Ha0) as [Ha1 [Hl1 [Hc1 Hv1]]].
  set (df1 := if str_in "id" (fcols df0) then drop_col df0 "id" else df0) in *.
  assert (Hz1 : In "zip_code_tabulation_area" (fcols df1)) by (apply Hc1; [exact Hz | discriminate]).
  assert (Hi1 : In "heat_vulerability_index" (fcols df1)) by (apply Hc1; [exact Hi | discriminate]).
  rewrite filter_all_false.
  2:{ intros c Hc. simpl in Hc. unfold not_in_cols. apply negb_false_iff, str_in_In.
      destruct Hc as [<- | [<- | []]]; assumption. }
  destruct (set_const_step df1 "file_name" (VStr IngestHeat.FILE_NAME_FOR_PROVENANCE) Ha1)
    as [Ha2 [Hl2 [Hc2 [Hn2 Hv2]]]].
  set (df2 := set_const df1 "file_name" (VStr IngestHeat.FILE_NAME_FOR_PROVENANCE)) in *.
  rewrite select_ok.
  2:{ intros c Hc. simpl. simpl in Hc. apply Hc2. destruct Hc as [<- | [<- | []]]; assumption. }
  rewrite bind_ret. unfold ret. f_equal. f_equal. rewrite map_map. apply rows_ext.
  - rewrite length_map. simpl frows. rewrite length_map, Hl2, Hl1. reflexivity.
  - intros k Hk. rewrite (nth_map_lt _ _ k [] [])
      by (simpl frows; rewrite length_map, Hl2, Hl1; exact Hk).
    rewrite map_map. apply map_ext_in. intros c Hc.
    change (cell (strip_all df2) (nth k (frows (strip_all df2)) []) c) with (view (strip_all df2) k c).
    change (cell df0 (nth k rows []) c) with (view df0 k c).
    rewrite view_strip_all, Hv2 by (rewrite Hl1; exact Hk).
    simpl in Hc. destruct Hc as [<- | [<- | []]]; cbn [String.eqb Ascii.eqb Bool.eqb];
      rewrite Hv1 by (try exact Hk; discriminate); reflexivity.
Qed.

Lemma id_not_insert_2015 : ~ In "id" Ingest2015.INSERT_COLUMNS.
Proof. vm_compute. intros H. repeat destruct H as [H | H]; try discriminate H. exact H. Qed.

Ltac eqb_cases c :=
  destruct (String.eqb c "file_name") eqn:Ef;
  destruct (String.eqb c "health_3cat") eqn:Eh;
  destruct (String.eqb c "created_at") eqn:Ec;
  repeat match goal with
         | E : String.eqb c ?a = true |- _ => apply String.eqb_eq in E; subst c
         end;
  cbn [String.eqb Ascii.eqb Bool.eqb] in *;
  try discriminate.

(** The 2015 records: for a file whose normalized header has no repeated
    name and has every insert column but the two the script adds (every
    row as wide as the header), the run logs the
    two conversions and gives one record per row, in order; in it
    [created_at] is the ISO date of the raw [created_at], [health_3cat]
    the bucket of the raw [health], [file_name] the source name, and
    every other column the row's trimmed cell, a missing value becoming
    [None]. *)
Theorem records_2015_by_row (hdr : list string) (rows : list (list pyval))
  (Hnd : NoDup (normalize_headers hdr))
  (Hcols : forall c, In c Ingest2015.INSERT_COLUMNS -> c <> "health_3cat" -> c <> "file_name" ->
                     In c (normalize_headers hdr))
  (Hwf : Forall (fun r => length r = length (normalize_headers hdr)) rows) :
  Ingest2015.prepare hdr rows
  = ([EConvert "created_at"; EConvert "health_3cat"],
     inr (map (fun r =>
       map (fun c =>
         if String.eqb c "created_at"
         then of_S (to_iso_date (conv_arg (cell (mkframe (normalize_headers hdr) rows) r "created_at")))
         else if String.eqb c "health_3cat"
         then of_S (health_to_health_3cat (conv_arg (cell (mkframe (normalize_headers hdr) rows) r "health")))
         else if String.eqb c "file_name" then VStr Ingest2015.FILE_NAME_FOR_PROVENANCE
         else nan_to_none (strip_cell (cell (mkframe (normalize_headers hdr) rows) r c)))
         Ingest2015.INSERT_COLUMNS) rows)).
Proof.
  set (df0 := mkframe (normalize_headers hdr) rows).
  assert (Ha0 : aligned df0) by exact Hwf.
  assert (L0 : length (frows df0) = length rows) by reflexivity.
  unfold Ingest2015.prepare. fold df0.
  destruct (drop_if_step df0 "id" Ha0) as [Ha1 [Hl1 [Hc1 Hv1]]].
  set (df1 := if str_in "id" (fcols df0) then drop_col df0 "id" else df0) in *.
  assert (Hin1 : forall c, In c Ingest2015.INSERT_COLUMNS -> c <> "health_3cat" ->
                 c <> "file_name" -> In c (fcols df1)).
  { intros c Hc H1 H2. apply Hc1; [exact (Hcols c Hc H1 H2)|].
    intros ->. exact (id_not_insert_2015 Hc). }
  destruct (map_col_step df1 "created_at" "created_at" (fun v => of_S (to_iso_date (conv_arg v))) Ha1
              (Hin1 "created_at" ltac:(simpl; tauto) ltac:(discriminate) ltac:(discriminate)))
    as [df2 [E2 [Ha2 [Hl2 [Hc2 [Hn2 Hv2]]]]]].
  rewrite E2, bind_inr. cbv beta.
  destruct (map_col_step df2 "health" "health_3cat" (fun v => of_S (health_to_health_3cat (conv_arg v))) Ha2
              (Hc2 _ (Hin1 "health" ltac:(simpl; tauto) ltac:(discriminate) ltac:(discriminate))))
    as [df3 [E3 [Ha3 [Hl3 [Hc3 [Hn3 Hv3]]]]]].
  rewrite E3, bind_inr. cbv beta.
  destruct (set_const_step df3 "file_name" (VStr Ingest2015.FILE_NAME_FOR_PROVENANCE) Ha3)
    as [Ha4 [Hl4 [Hc4 [Hn4 Hv4]]]].
  set (df4 := set_const df3 "file_name" (VStr Ingest2015.FILE_NAME_FOR_PROVENANCE)) in *.
  rewrite select_ok.
  2:{ intros c Hc. simpl fcols.
      destruct (string_dec c "file_name") as [-> | Hf]; [exact Hn4|]. apply Hc4.
      destruct (string_dec c "health_3cat") as [-> | Hh]; [exact Hn3|]. apply Hc3, Hc2.
      exact (Hin1 c Hc Hh Hf). }
  rewrite bind_ret. unfold ret. cbn [fst snd app]. f_equal. f_equal.
  rewrite map_map. apply rows_ext.
  - rewrite length_map. simpl frows. rewrite length_map. lia.
  - intros k Hk.
    assert (K0 : k < length (frows df0)) by exact Hk.
    assert (K1 : k < length (frows df1)) by lia.
    assert (K2 : k < length (frows df2)) by lia.
    assert (K3 : k < length (frows df3)) by lia.
    rewrite (nth_map_lt _ _ k [] []) by (simpl frows; rewrite length_map; lia).
    rewrite map_map. apply map_ext_in. intros c Hc.
    change (cell (strip_all df4) (nth k (frows (strip_all df4)) []) c) with (view (strip_all df4) k c).
    change (cell df0 (nth k rows []) ?x) with (view df0 k x).
    assert (Hcid : c <> "id") by (intros ->; exact (id_not_insert_2015 Hc)).
    rewrite view_strip_all, (Hv4 k c K3), (Hv3 k c K2), (Hv2 k c K1), (Hv2 k "health" K1),
      (Hv1 k "health" K0 ltac:(discriminate)), (Hv1 k "created_at" K0 ltac:(discriminate)),
      (Hv1 k c K0 Hcid).
    eqb_cases c.
    + reflexivity.
    + rewrite strip_cell_health. apply nan_to_none_of_S.
    + rewrite strip_cell_iso. apply nan_to_none_of_S.
    + reflexivity.
Qed.

Lemma nodup_str_NoDup (l : list string) : nodup_str l = true -> NoDup l.
Proof.
  induction l as [|c l IH]; intros H; [constructor|]. simpl in H.
  apply andb_true_iff in H as [H1 H2]. constructor; [|apply IH, H2].
  apply str_in_false. apply negb_true_iff, H1.
Qed.

(** The 2005 script checks its source columns first: if one is absent
    after header normalization, the run converts nothing and fails with a
    [ValueError] listing exactly the absent source columns, in order. *)
Theorem prepare_2005_missing_columns (hdr : list string) (rows : list (list pyval)) (c : string)
  (Hc : In c Ingest2005.SRC_COLUMNS) (Hn : ~ In c (normalize_headers hdr)) :
  Ingest2005.prepare hdr rows
  = ([], inl (ValueError (filter (fun c => negb (str_in c (normalize_headers hdr)))
                                 Ingest2005.SRC_COLUMNS)))
  /\ In c (filter (fun c => negb (str_in c (normalize_headers hdr))) Ingest2005.SRC_COLUMNS).
Proof.
  assert (Hin : In c (filter (fun c => negb (str_in c (normalize_headers hdr)))
                             Ingest2005.SRC_COLUMNS)).
  { apply filter_In. split; [exact Hc|]. apply negb_true_iff, str_in_false, Hn. }
  split; [|exact Hin].
  unfold Ingest2005.prepare, not_in_cols. simpl fcols.
  destruct (filter (fun c => negb (str_in c (normalize_headers hdr))) Ingest2005.SRC_COLUMNS);
    [contradiction | reflexivity].
Qed.

(** The month part of a ["YYYY-MM"] text, checked for every month. *)
Lemma month_tail_table :
  forallb (fun m =>
    match regex_matches [DirLit "-"; Dirm] ("-" ++ pad_dec 2 m) with
    | (caps, rest) :: _ =>
        String.eqb rest EmptyString &&
        match capture caps Dirm, capture caps Dird with
        | Some xm, None => Z.eqb (group_int xm) m
        | _, _ => false
        end
    | [] => false
    end) (map Z.of_nat (seq 1 12)) = true.
Proof. vm_compute. reflexivity. Qed.

Lemma month_tail (m : Z) :
  (1 <= m <= 12)%Z ->
  exists caps tl xm,
    regex_matches [DirLit "-"; Dirm] ("-" ++ pad_dec 2 m) = (caps, EmptyString) :: tl
    /\ capture caps Dirm = Some xm /\ group_int xm = m /\ capture caps Dird = None.
Proof.
  intros Hm. pose proof month_tail_table as T.
  rewrite forallb_forall in T. specialize (T m (in_range_map m 1 12 ltac:(lia))). cbv beta in T.
  destruct (regex_matches _ _) as [|[caps rest] tl]; [discriminate T|].
  apply andb_prop in T as [Hr T]. apply String.eqb_eq in Hr. subst rest.
  destruct (capture caps Dirm) as [xm|] eqn:Hxm; [|discriminate T].
  destruct (capture caps Dird) as [xd|] eqn:Hxd; [discriminate T|].
  apply Z.eqb_eq in T. exists caps, tl, xm. repeat split; assumption.
Qed.

Lemma days_in_month_ge (y m : Z) : (28 <= days_in_month y m)%Z.
Proof.
  unfold days_in_month. destruct (Z.eqb m 2); [destruct (is_leap y)|destruct (existsb _ _)]; lia.
Qed.

Lemma year_unpadded_4 (y : Z) : (1000 <= y)%Z -> IngestMonthly.year_unpadded y = pad_dec 4 y.
Proof.
  intros H. unfold IngestMonthly.year_unpadded. apply Z.leb_le in H. rewrite H. reflexivity.
Qed.

(** [to_date_month] reads the ["YYYY-MM"] text of any year 1000..9999
    and month 1..12 and gives the first of that month, ["YYYY-MM-01"]. *)
Theorem to_date_month_reads_year_month (y m : Z)
  (Hy : (1000 <= y <= 9999)%Z) (Hm : (1 <= m <= 12)%Z) :
  IngestMonthly.to_date_month (VStr (pad_dec 4 y ++ "-" ++ pad_dec 2 m))
  = VStr (pad_dec 4 y ++ "-" ++ pad_dec 2 m ++ "-01").
Proof.
  destruct (month_tail m Hm) as [caps [tl [xm [Hre [Hxm [Hgm Hxd]]]]]].
  pose proof (days_in_month_ge y m).
  unfold IngestMonthly.to_date_month.
  rewrite strip_nonspace
    by (rewrite !forall_chars_app,
          (all_digits_nonspace _ (pad_dec_digits 4 y)),
          (all_digits_nonspace _ (pad_dec_digits 2 m)); reflexivity).
  unfold strptime.
  change (compile_fmt "%Y-%m") with (DirY :: [DirLit "-"; Dirm]).
  rewrite regex_matches_year by (apply pad_dec_length || apply pad_dec_digits).
  rewrite Hre. cbn [map negb String.eqb capture].
  rewrite Hxm, Hxd, Hgm, group_int_pad_dec by (cbn; lia).
  assert (Hv : valid_date (mkdate y m 1) = true).
  { unfold valid_date. cbn [year month day]. rewrite !andb_true_iff, !Z.leb_le. lia. }
  rewrite Hv. cbn [year month]. rewrite year_unpadded_4 by lia. reflexivity.
Qed.

Lemma blank_test_lower (s : string) :
  String.eqb (strip s) EmptyString = String.eqb (strip (lower s)) EmptyString.
Proof.
  destruct (String.eqb_spec (strip s) EmptyString) as [E1|E1];
    destruct (String.eqb_spec (strip (lower s)) EmptyString) as [E2|E2]; try reflexivity.
  - exfalso. apply E2, strip_empty_iff. rewrite lower_blank. apply strip_empty_iff, E1.
  - exfalso. apply E1, strip_empty_iff. rewrite <- lower_blank. apply strip_empty_iff, E2.
Qed.

Lemma secondary_lookup_in (n b : string) (m : list (string * string)) :
  secondary_lookup n m = Some b -> In b (map snd m).
Proof.
  induction m as [|[k v] m IH]; simpl; [discriminate|].
  destruct (py_contains n k); [intros H; injection H as <-; left; reflexivity|].
  intros H. right. apply IH, H.
Qed.

(** [infer_borough] only ever answers one of the five boroughs or
    ["Unknown"]. *)
Theorem infer_borough_values (o : option string) :
  In (infer_borough o) ["Manhattan"; "Bronx"; "Brooklyn"; "Queens"; "Staten Island"; "Unknown"].
Proof.
  destruct o as [s|]; [|simpl; tauto]. unfold infer_borough.
  destruct (String.eqb (strip s) EmptyString); [simpl; tauto|].
  destruct (secondary_lookup (strip (lower s)) BOROUGH_MAP_SECONDARY) as [b|] eqn:E.
  - apply secondary_lookup_in in E. simpl in E.
    repeat destruct E as [<- | E]; try contradiction; simpl; tauto.
  - repeat match goal with |- context [if ?b then _ else _] => destruct b end; simpl; tauto.
Qed.

(** [infer_borough] and [infer_geo_level] depend only on the trimmed,
    lower-cased name: two names that agree on it get the same borough and
    the same geo level. *)
Theorem place_inference_normalized (s t : string)
  (H : strip (lower s) = strip (lower t)) :
  infer_borough (Some s) = infer_borough (Some t)
  /\ infer_geo_level (Some s) = infer_geo_level (Some t).
Proof.
  unfold infer_borough, infer_geo_level.
  rewrite (blank_test_lower s), (blank_test_lower t), H. split; reflexivity.
Qed.

(** A name [infer_geo_level] calls a borough gets that borough from
    [infer_borough]: its answer, lower-cased, is the trimmed,
    lower-cased name. *)
Theorem geo_borough_agrees (s : string) (H : infer_geo_level (Some s) = "Borough") :
  lower (infer_borough (Some s)) = strip (lower s).
Proof.
  unfold infer_geo_level in H. unfold infer_borough.
  destruct (String.eqb (strip s) EmptyString); [discriminate H|].
  destruct (str_in (strip (lower s)) ["bronx"; "brooklyn"; "queens"; "manhattan"; "staten island"])
    eqn:E; [|discriminate H].
  apply str_in_In in E. simpl in E.
  repeat destruct E as [E | E]; try contradiction; rewrite <- E; vm_compute; reflexivity.
Qed.

(** With a positive batch size, the two batch loops of the scripts (the
    one carrying [start] over, and the one computing [b * BATCH_SIZE])
    do exactly the same: same statements, commits, rollback and
    verification query, same outcome, for every pattern of failing
    batches. *)
Theorem batch_loops_agree (fails : nat -> bool) (records : list (list pyval)) (S : nat)
  (HS : 0 < S) :
  Loader.load_indexed fails records S = Loader.load fails records S.
Proof.
  pose proof (load_spec fails records S HS) as Hl. rewrite load_indexed_spec.
  destruct (first_fail_from fails 0 (Loader.ceil_div (length records) S));
    destruct Hl as [Hl _]; rewrite Hl; reflexivity.
Qed.

Lemma remove_nth_in (i : nat) (l : list string) (x : string) :
  In x (remove_nth i l) -> In x l.
Proof.
  revert i. induction l as [|y l IH]; intros i H; destruct i as [|i]; simpl in *; try tauto.
  destruct H as [H | H]; [left; exact H | right; exact (IH i H)].
Qed.

Lemma str_in_drop_if (df : frame) (c x : string) :
  x <> c ->
  str_in x (fcols (if str_in c (fcols df) then drop_col df c else df)) = str_in x (fcols df).
Proof.
  intros Hne. apply Bool.eq_iff_eq_true. rewrite !str_in_In.
  destruct (str_in c (fcols df)) eqn:E; [|tauto].
  unfold drop_col. destruct (index_of c (fcols df)) as [i|] eqn:Ei; [|tauto]. simpl fcols.
  split; [apply remove_nth_in|].
  intros Hx. apply in_remove_nth; [exact Hx|].
  intros Exi. apply index_of_nth in Exi. apply index_of_nth in Ei. congruence.
Qed.

(** C5 (amended): the 1995 script checks its source columns right after
    normalizing the header: when some are absent it fails with a
    [ValueError] listing all of them, with no conversion logged and no
    record produced.  The 2015 script has no such check: on a header with
    no repeated name that has [created_at] and [health] but lacks an
    insert column [c] other than the two it adds itself ([health_3cat],
    [file_name]), it converts [created_at] and [health] first and only
    then fails, with a [KeyError] listing exactly the insert columns
    absent from the header other than these two, in order. *)
Theorem required_columns_by_script (hdr : list string) (rows : list (list pyval))
  (hdr' : list string) (rows' : list (list pyval)) (c : string)
  (Hmiss : filter (fun c => negb (str_in c (normalize_headers hdr))) Ingest1995.SRC_COLUMNS <> [])
  (Hnd : NoDup (normalize_headers hdr'))
  (Hcr : In "created_at" (normalize_headers hdr'))
  (Hh : In "health" (normalize_headers hdr'))
  (Hc : In c Ingest2015.INSERT_COLUMNS)
  (Hcn : ~ In c (normalize_headers hdr'))
  (Hc3 : c <> "health_3cat") (Hcf : c <> "file_name") :
  Ingest1995.prepare hdr rows
  = ([], inl (ValueError (filter (fun c => negb (str_in c (normalize_headers hdr)))
                                 Ingest1995.SRC_COLUMNS))) /\
  Ingest2015.prepare hdr' rows'
  = ([EConvert "created_at"; EConvert "health_3cat"],
     inl (KeyError (filter (fun x => negb (str_in x (normalize_headers hdr'))
                                     && negb (String.eqb x "health_3cat")
                                     && negb (String.eqb x "file_name"))
                           Ingest2015.INSERT_COLUMNS))).
Proof.
  split.
  - unfold Ingest1995.prepare, not_in_cols. simpl fcols.
    destruct (filter (fun c => negb (str_in c (normalize_headers hdr))) Ingest1995.SRC_COLUMNS);
      [contradiction | reflexivity].
  - unfold Ingest2015.prepare. cbv zeta.
    set (df0 := mkframe (normalize_headers hdr') rows').
    set (df1 := if str_in "id" (fcols df0) then drop_col df0 "id" else df0).
    assert (Hk : forall x, x <> "id" -> str_in x (fcols df1) = str_in x (normalize_headers hdr'))
      by (intros x Hx; exact (str_in_drop_if df0 "id" x Hx)).
    assert (Hcr1 : In "created_at" (fcols df1))
      by (apply str_in_In; rewrite Hk by discriminate; apply str_in_In, Hcr).
    destruct (map_col_present df1 "created_at" "created_at"
                (fun v => of_S (to_iso_date (conv_arg v))) Hcr1) as [df2 [E2 C2]].
    rewrite E2, bind_inr.
    assert (Hh2 : In "health" (fcols df2))
      by (apply C2; left; apply str_in_In; rewrite Hk by discriminate; apply str_in_In, Hh).
    destruct (map_col_present df2 "health" "health_3cat"
                (fun v => of_S (health_to_health_3cat (conv_arg v))) Hh2) as [df3 [E3 C3]].
    rewrite E3, bind_inr.
    set (df4 := strip_all (set_const df3 "file_name" (VStr Ingest2015.FILE_NAME_FOR_PROVENANCE))).
    assert (Hsel : filter (fun x => negb (str_in x (fcols df4))) Ingest2015.INSERT_COLUMNS
                   = filter (fun x => negb (str_in x (normalize_headers hdr'))
                                      && negb (String.eqb x "health_3cat")
                                      && negb (String.eqb x "file_name"))
                            Ingest2015.INSERT_COLUMNS).
    { apply filter_ext_in. intros x Hx.
      assert (Hxid : x <> "id").
      { intros ->. revert Hx. vm_compute. intuition discriminate. }
      rewrite <- (Hk x Hxid).
      destruct (String.eqb_spec x "health_3cat") as [-> | N3];
        [|destruct (String.eqb_spec x "file_name") as [-> | Nf]].
      - rewrite andb_false_r. apply negb_false_iff, str_in_In.
        unfold df4, strip_all, set_const. simpl fcols. apply fcols_set_col. left.
        apply C3. right. reflexivity.
      - rewrite andb_false_r. apply negb_false_iff, str_in_In.
        unfold df4, strip_all, set_const. simpl fcols. apply fcols_set_col. right. reflexivity.
      - rewrite !andb_true_r. f_equal. apply Bool.eq_iff_eq_true. rewrite !str_in_In.
        unfold df4, strip_all, set_const. simpl fcols. rewrite fcols_set_col, C3, C2.
        split; [|tauto]. intros [[[H | H] | H] | H]; [exact H | subst; exact Hcr1 | congruence | congruence]. }
    unfold select. rewrite Hsel.
    assert (Hm : In c (filter (fun x => negb (str_in x (normalize_headers hdr'))
                                        && negb (String.eqb x "health_3cat")
                                        && negb (String.eqb x "file_name"))
                              Ingest2015.INSERT_COLUMNS)).
    { apply filter_In. split; [exact Hc|].
      apply str_in_false in Hcn. rewrite Hcn.
      apply String.eqb_neq in Hc3. apply String.eqb_neq in Hcf. rewrite Hc3, Hcf. reflexivity. }
    revert Hm.
    destruct (filter (fun x => negb (str_in x (normalize_headers hdr'))
                               && negb (String.eqb x "health_3cat")
                               && negb (String.eqb x "file_name"))
                     Ingest2015.INSERT_COLUMNS) as [|m ms]; [intros []|].
    intros _. rewrite bind_raise. reflexivity.
Qed.

(** C5, an instance: a 2015 extract with [tree_id], [created_at] and
    [health] fails on every other insert column but [health_3cat] and
    [file_name], beginning with [block_id]. *)
Lemma required_columns_by_script_witness :
  exists missing,
    Ingest2015.prepare ["tree_id"; "created_at"; "health"] []
    = ([EConvert "created_at"; EConvert "health_3cat"], inl (KeyError ("block_id" :: missing)))
    /\ ~ In "tree_id" missing /\ ~ In "health_3cat" missing /\ ~ In "file_name" missing.
Proof.
  pose proof (proj2 (required_columns_by_script ["tree_id"] [] ["tree_id"; "created_at"; "health"] []
                   "block_id" ltac:(vm_compute; discriminate)
                   ltac:(vm_compute; repeat (constructor; [simpl; intuition discriminate |]); constructor)
                   ltac:(vm_compute; tauto) ltac:(vm_compute; tauto) ltac:(vm_compute; tauto)
                   ltac:(vm_compute; intros [H | [H | [H | []]]]; discriminate)
                   ltac:(discriminate) ltac:(discriminate))) as H.
  rewrite H. clear H. eexists. split; [vm_compute; reflexivity|].
  vm_compute. split; [|split]; intuition discriminate.
Defined.

(** The heat-vulnerability script checks its two data columns after
    dropping [id]: if one is absent after header normalization, the run
    fails with a [ValueError] listing exactly the absent ones, before it
    produces any record. *)
Theorem heat_missing_columns (hdr : list string) (rows : list (list pyval)) (c : string)
  (Hc : In c IngestHeat.INSERT_COLUMNS) (Hn : ~ In c (normalize_headers hdr)) :
  IngestHeat.prepare hdr rows
  = ([], inl (ValueError (filter (fun c => negb (str_in c (normalize_headers hdr)))
                                 IngestHeat.INSERT_COLUMNS)))
  /\ In c (filter (fun c => negb (str_in c (normalize_headers hdr))) IngestHeat.INSERT_COLUMNS).
Proof.
  assert (Hin : In c (filter (fun c => negb (str_in c (normalize_headers hdr)))
                             IngestHeat.INSERT_COLUMNS)).
  { apply filter_In. split; [exact Hc|]. apply negb_true_iff, str_in_false, Hn. }
  split; [|exact Hin].
  unfold IngestHeat.prepare. cbv zeta.
  set (df0 := mkframe (normalize_headers hdr) rows).
  replace (filter (not_in_cols (if str_in "id" (fcols df0) then drop_col df0 "id" else df0))
                  (filter (fun c => negb (String.eqb c "file_name")) IngestHeat.INSERT_COLUMNS))
    with (filter (fun c => negb (str_in c (normalize_headers hdr))) IngestHeat.INSERT_COLUMNS).
  2:{ cbn [filter IngestHeat.INSERT_COLUMNS String.eqb Ascii.eqb Bool.eqb negb].
      unfold not_in_cols. rewrite !str_in_drop_if by discriminate. reflexivity. }
  destruct (filter (fun c => negb (str_in c (normalize_headers hdr))) IngestHeat.INSERT_COLUMNS);
    [contradiction | reflexivity].
Qed.

Lemma check_required_first (df : frame) (req : list string) :
  IngestMonthly.check_required df req
  = match filter (fun c => negb (str_in c (fcols df))) req with
    | [] => ret tt
    | c :: _ => raise (ValueError [c])
    end.
Proof.
  induction req as [|c req IH]; [reflexivity|]. cbn [IngestMonthly.check_required filter].
  destruct (str_in c (fcols df)); [exact IH | reflexivity].
Qed.

(** The monthly-weather script checks [station], [name] and [date] in
    this order and stops at the first absent one: the run fails with a
    [ValueError] naming that column alone, before any conversion. *)
Theorem monthly_first_missing_column (store_int : list (option Z) -> Z -> pyval)
  (csv_name : string) (hdr : list string)
  (rows : list (list pyval)) (c : string) (rest : list string)
  (H : filter (fun c => negb (str_in c (monthly_cols hdr))) ["station"; "name"; "date"]
       = c :: rest) :
  IngestMonthly.prepare_file store_int csv_name hdr rows = ([], inl (ValueError [c])).
Proof.
  unfold IngestMonthly.prepare_file. cbv zeta. rewrite check_required_first.
  change (fcols (mkframe (map (fun c => lower (strip c)) hdr) rows)) with (monthly_cols hdr).
  rewrite H. reflexivity.
Qed.

(* ------------------------------------------------------------------ *)
(** ** Rows kept by the monthly-weather transformer *)































(* ------------------------------------------------------------------ *)
(** ** Instances of the further properties *)

Lemma to_int_reads_decimal_witness :
  to_int (Some (pad_dec 4 1995)) = Some 1995%Z.
Proof.
  refine (proj1 (to_int_reads_decimal 4 1995 _ _ _)); [lia | lia | vm_compute; split; congruence].
Defined.

Lemma converters_ignore_separators_witness :
  to_int (Some ("1" ++ String "," "995")) = to_int (Some ("1" ++ "995")).
Proof.
  refine (proj1 (converters_ignore_separators "1" "995" "," _)). reflexivity.
Defined.

Lemma normalized_header_shape_witness :
  In "created_at" (normalize_headers [" Created At "]) /\ strip "created_at" = "created_at".
Proof.
  assert (H : In "created_at" (normalize_headers [" Created At "]))
    by (apply str_in_In; vm_compute; reflexivity).
  split; [exact H|]. exact (proj1 (normalized_header_shape [" Created At "] "created_at" H)).
Defined.

Lemma to_iso_date_isoformat_witness :
  to_iso_date (Some (isoformat (mkdate 2015%Z 8%Z 27%Z))) = Some (isoformat (mkdate 2015%Z 8%Z 27%Z)).
Proof. apply to_iso_date_isoformat. vm_compute. reflexivity. Defined.

Lemma to_iso_date_idempotent_witness :
  to_iso_date (Some "8/27/15") = Some "2015-08-27" /\ to_iso_date (Some "2015-08-27") = Some "2015-08-27".
Proof.
  assert (H : to_iso_date (Some "8/27/15") = Some "2015-08-27") by (vm_compute; reflexivity).
  split; [exact H|]. exact (to_iso_date_idempotent "8/27/15" "2015-08-27" H).
Defined.

Lemma heat_records_are_trimmed_rows_witness :
  IngestHeat.prepare ["Borough"; "ZIP Code Tabulation Area"; " HEAT_VULERABILITY_INDEX"]
    [[VStr "Manhattan"; VStr " 10001 "; VNaN]; [VStr "Bronx"; VStr "10451"; VStr " 5 "]]
  = ([], inr [[VStr "10001"; VNone]; [VStr "10451"; VStr "5"]]).
Proof.
  rewrite (heat_records_are_trimmed_rows ["Borough"; "ZIP Code Tabulation Area"; " HEAT_VULERABILITY_INDEX"]
             [[VStr "Manhattan"; VStr " 10001 "; VNaN]; [VStr "Bronx"; VStr "10451"; VStr " 5 "]]).
  - vm_compute. reflexivity.
  - apply nodup_str_NoDup. vm_compute. reflexivity.
  - apply str_in_In. vm_compute. reflexivity.
  - apply str_in_In. vm_compute. reflexivity.
  - repeat constructor.
Defined.

Lemma records_2015_by_row_witness :
  exists recs,
    Ingest2015.prepare
      (filter (fun c => negb (String.eqb c "health_3cat") && negb (String.eqb c "file_name"))
              Ingest2015.INSERT_COLUMNS)
      [map (fun c => if String.eqb c "created_at" then VStr "08/27/2015"
                     else if String.eqb c "health" then VStr " Good" else VStr (" " ++ c))
           (filter (fun c => negb (String.eqb c "health_3cat") && negb (String.eqb c "file_name"))
                   Ingest2015.INSERT_COLUMNS);
       map (fun c => if String.eqb c "created_at" then VStr "soon"
                     else if String.eqb c "health" then VNaN else VNaN)
           (filter (fun c => negb (String.eqb c "health_3cat") && negb (String.eqb c "file_name"))
                   Ingest2015.INSERT_COLUMNS)]
    = ([EConvert "created_at"; EConvert "health_3cat"], inr recs)
    /\ map (firstn 3) recs = [[VStr "tree_id"; VStr "block_id"; VStr "2015-08-27"]; [VNone; VNone; VNone]]
    /\ map (fun r => nth 8 r VNaN) recs = [VStr "Good"; VNone]
    /\ map (fun r => nth 46 r VNaN) recs
       = [VStr Ingest2015.FILE_NAME_FOR_PROVENANCE; VStr Ingest2015.FILE_NAME_FOR_PROVENANCE].
Proof.
  rewrite (records_2015_by_row
    (filter (fun c => negb (String.eqb c "health_3cat") && negb (String.eqb c "file_name"))
            Ingest2015.INSERT_COLUMNS)).
  - eexists. split; [reflexivity|]. vm_compute. split; [reflexivity | split; reflexivity].
  - apply nodup_str_NoDup. vm_compute. reflexivity.
  - intros c Hc H1 H2.
    replace (normalize_headers
               (filter (fun c => negb (String.eqb c "health_3cat") && negb (String.eqb c "file_name"))
                       Ingest2015.INSERT_COLUMNS))
      with (filter (fun c => negb (String.eqb c "health_3cat") && negb (String.eqb c "file_name"))
                   Ingest2015.INSERT_COLUMNS) by (vm_compute; reflexivity).
    apply filter_In. split; [exact Hc|].
    apply String.eqb_neq in H1, H2. rewrite H1, H2. reflexivity.
  - apply Forall_cons; [vm_compute; reflexivity|]. apply Forall_cons; [vm_compute; reflexivity|].
    apply Forall_nil.
Defined.

Lemma prepare_2005_missing_columns_witness :
  Ingest2005.prepare ["tree_id"] []
  = ([], inl (ValueError (filter (fun c => negb (str_in c (normalize_headers ["tree_id"])))
                                 Ingest2005.SRC_COLUMNS))).
Proof.
  refine (proj1 (prepare_2005_missing_columns ["tree_id"] [] "status" _ _)).
  - apply str_in_In. vm_compute. reflexivity.
  - apply str_in_false. vm_compute. reflexivity.
Defined.

Lemma to_date_month_reads_year_month_witness :
  IngestMonthly.to_date_month (VStr (pad_dec 4 2024 ++ "-" ++ pad_dec 2 3)) = VStr "2024-03-01".
Proof. rewrite (to_date_month_reads_year_month 2024 3) by lia. reflexivity. Defined.

Lemma place_inference_normalized_witness :
  infer_borough (Some "  PARK Slope") = infer_borough (Some "park slope").
Proof.
  refine (proj1 (place_inference_normalized "  PARK Slope" "park slope" _)).
  vm_compute. reflexivity.
Defined.

Lemma geo_borough_agrees_witness :
  lower (infer_borough (Some " Staten Island ")) = strip (lower " Staten Island ").
Proof. apply geo_borough_agrees. vm_compute. reflexivity. Defined.

Lemma batch_loops_agree_witness :
  Loader.load_indexed (fun b => Nat.eqb b 1) [[VInt 1]; [VInt 2]; [VInt 3]] 2
  = Loader.load (fun b => Nat.eqb b 1) [[VInt 1]; [VInt 2]; [VInt 3]] 2.
Proof. apply batch_loops_agree. lia. Defined.

Lemma heat_missing_columns_witness :
  IngestHeat.prepare ["zip_code_tabulation_area"] []
  = ([], inl (ValueError (filter (fun c => negb (str_in c (normalize_headers ["zip_code_tabulation_area"])))
                                 IngestHeat.INSERT_COLUMNS))).
Proof.
  refine (proj1 (heat_missing_columns ["zip_code_tabulation_area"] [] "heat_vulerability_index" _ _)).
  - apply str_in_In. vm_compute. reflexivity.
  - apply str_in_false. vm_compute. reflexivity.
Defined.

Lemma monthly_first_missing_column_witness :
  IngestMonthly.prepare_file IngestMonthly.pandas_store_int "m.csv" ["STATION"; "date"] []
  = ([], inl (ValueError ["name"])).
Proof. apply (monthly_first_missing_column IngestMonthly.pandas_store_int "m.csv" ["STATION"; "date"] [] "name" []). vm_compute. reflexivity. Defined.
